(** * Non-diatonic tone profiles: the analysis notebook, verified

    A shallow embedding of the code cells of [analysis_probe_tone.ipynb]
    (Python 2, numpy / scipy / pandas):

    - cell 1: the Krumhansl-Kessler base vectors, [rotate], [profile],
      [key_ratings] and the 24 x 24 matrix [key_distances];
    - cell 2: the [conditions] manifest, crossed from two directory listings;
    - cell 3: the response logs, read, trimmed, concatenated and projected.

    Python floats are IEEE 754 binary64 numbers: they are modelled by Rocq's
    primitive floats, which are the same numbers with the same rounding.
    A Python call either returns a value or raises: [outcome]. *)

From Stdlib Require Import ZArith String Ascii List Bool Lia Floats Sorted.
From Stdlib Require Import Permutation.
Import ListNotations.

(* A decimal literal such as 6.35 denotes the nearest binary64 number, in
   Python as in Rocq. *)
Set Warnings "-inexact-float".

Local Open Scope string_scope.
Local Open Scope list_scope.
Local Open Scope Z_scope.

(* ===================================================================== *)
(** * Outcomes of Python calls *)
(* ===================================================================== *)

(** The built-in exceptions the modelled calls can raise. *)
Inductive exn : Set :=
| TypeError
| ValueError
| KeyError
| IndexError.

Inductive outcome (A : Type) : Type :=
| Returned (v : A)
| Raised (e : exn).

Arguments Returned {A} v.
Arguments Raised {A} e.

Definition bind {A B : Type} (c : outcome A) (k : A -> outcome B) : outcome B :=
  match c with
  | Returned v => k v
  | Raised e => Raised e
  end.

Notation "x <- c ;; k" := (bind c (fun x => k))
  (at level 61, c at next level, right associativity).

(** A list comprehension whose element expression may raise: the elements are
    evaluated from left to right and the first exception ends it. *)
Fixpoint comprehension {A B : Type} (f : A -> outcome B) (l : list A)
  : outcome (list B) :=
  match l with
  | [] => Returned []
  | a :: l' =>
      b <- f a ;;
      bs <- comprehension f l' ;;
      Returned (b :: bs)
  end.

(** The values a caller can pass where the notebook expects a pitch class. *)
Inductive pyval : Type :=
| PyInt (z : Z)
| PyNone
| PyFloat (f : float)
| PyStr (s : string).

(* ===================================================================== *)
(** * List slices *)
(* ===================================================================== *)

Module PyList.
Section Slices.
Context {A : Type}.

(** A slice bound [k] on a list of [len] entries: a negative bound counts
    from the end, and every bound is clipped to [0, len]. *)
Definition clamp (len : nat) (k : Z) : nat :=
  Z.to_nat (if k <? 0 then Z.max (Z.of_nat len + k) 0
            else Z.min k (Z.of_nat len)).

(** A slice bound is an integer or [None]; anything else is a TypeError. *)
Definition slice_bound (k : pyval) : outcome (option Z) :=
  match k with
  | PyInt z => Returned (Some z)
  | PyNone => Returned None
  | PyFloat _ | PyStr _ => Raised TypeError
  end.

(** [l[k:]] *)
Definition slice_from (l : list A) (k : option Z) : list A :=
  match k with
  | Some z => skipn (clamp (length l) z) l
  | None => l
  end.

(** [l[:k]] *)
Definition slice_to (l : list A) (k : option Z) : list A :=
  match k with
  | Some z => firstn (clamp (length l) z) l
  | None => l
  end.

(** [range(n)] *)
Definition range (n : nat) : list Z := map Z.of_nat (seq 0 n).

End Slices.
End PyList.

(* ===================================================================== *)
(** * Cell 1: key profiles *)
(* ===================================================================== *)

Local Open Scope float_scope.

(** KK82 C-major profile *)
Definition KK_major : list float :=
  [6.35; 2.23; 3.48; 2.33; 4.38; 4.09; 2.52; 5.19; 2.39; 3.66; 2.29; 2.88].

(** KK82 C-minor profile *)
Definition KK_minor : list float :=
  [6.33; 2.68; 3.52; 5.38; 2.60; 3.53; 2.54; 4.75; 3.98; 2.69; 3.34; 3.17].

(** chromatic vector (the notebook writes its entries as the integers 1;
    numpy converts them to binary64 before any arithmetic) *)
Definition chro : list float := [1; 1; 1; 1; 1; 1; 1; 1; 1; 1; 1; 1].

Local Close Scope float_scope.

Definition modes : list string := ["major"; "minor"].

(** [def rotate(l,k): return l[k:] + l[:k]] *)
Definition rotate {A : Type} (l : list A) (k : pyval) : outcome (list A) :=
  b <- PyList.slice_bound k ;;
  Returned (PyList.slice_from l b ++ PyList.slice_to l b).

(** [def profile(pitch_class, mode)]: every [mode] other than ['major']
    takes the [else] branch. *)
Definition profile (pitch_class : pyval) (mode : string) : outcome (list float) :=
  if String.eqb mode "major"
  then rotate KK_major pitch_class
  else rotate KK_minor pitch_class.

(** [key_ratings = [profile(i, m) for i in range(12) for m in modes]] *)
Definition key_ratings : outcome (list (list float)) :=
  comprehension (fun im : Z * string => profile (PyInt (fst im)) (snd im))
    (flat_map (fun i => map (fun m => (i, m)) modes) (PyList.range 12)).

(** The base vector the spec selects by mode. *)
Definition base (mode : string) : list float :=
  if String.eqb mode "major" then KK_major else KK_minor.

(** Modelled from the spec: [scipy.stats.pearsonr], which the notebook imports
    and whose code is not part of the repository. The spec gives
    [r = covariance(x,y) / (stddev(x) * stddev(y))] with the population
    definitions, for two vectors of equal length. The arithmetic is binary64,
    as numpy's is, with every sum taken from left to right; numpy's division
    returns NaN for 0/0 where Python's own would raise. Only the coefficient
    is modelled (the notebook takes component [0] of the result and drops the
    p-value). Operands of different lengths are outside the spec's
    definition: the element-wise product rejects them (ValueError); numpy's
    broadcasting of a one-entry operand is not modelled. *)
Module Stats.
Local Open Scope float_scope.

Definition fsum (l : list float) : float := fold_left PrimFloat.add l 0.

Definition flen (l : list float) : float :=
  PrimFloat.of_uint63 (Uint63.of_Z (Z.of_nat (length l))).

Definition mean (x : list float) : float := fsum x / flen x.

Definition centred (x : list float) : list float :=
  let m := mean x in map (fun a => a - m) x.

Definition covariance (x y : list float) : float :=
  fsum (map (fun ab => fst ab * snd ab) (combine (centred x) (centred y)))
  / flen x.

Definition stddev (x : list float) : float :=
  PrimFloat.sqrt (fsum (map (fun a => a * a) (centred x)) / flen x).

Definition pearsonr (x y : list float) : outcome float :=
  if Nat.eqb (length x) (length y)
  then Returned (covariance x y / (stddev x * stddev y))
  else Raised ValueError.

(** [abs(a - b) <= tol], the comparison of a tolerance test. *)
Definition within (tol a b : float) : bool := PrimFloat.leb (abs (a - b)) tol.

End Stats.

(** [key_distances = DataFrame([[pearsonr(key1, key2)[0] for key1 in key_ratings]
                                for key2 in key_ratings])]:
    the outer comprehension (the rows) runs over [key2]. The call is bare:
    the cell tests no variance and handles no exception. *)
Definition key_distances : outcome (list (list float)) :=
  ks <- key_ratings ;;
  comprehension
    (fun key2 => comprehension (fun key1 => Stats.pearsonr key1 key2) ks) ks.

(** Entry in row [i], column [j] of a matrix given by its rows. *)
Definition entry {A : Type} (m : list (list A)) (i j : nat) : option A :=
  match nth_error m i with
  | Some row => nth_error row j
  | None => None
  end.

(* ===================================================================== *)
(** * Cell 2: the conditions manifest *)
(* ===================================================================== *)

(** The directory tree as [glob] sees it: the names in a directory, in the
    order the file system lists them, or [None] when there is no such
    directory. *)
Definition tree : Type := string -> option (list string).

Module Glob.

Definition starts_with (p s : string) : bool := String.prefix p s.

Definition ends_with (suffix s : string) : bool :=
  let n := String.length s in
  let m := String.length suffix in
  Nat.leb m n && String.eqb (String.substring (n - m) m s) suffix.

(** [glob.glob(dir + "*.wav")] for a [dir] that ends in a slash and holds
    no wildcard (the notebook's directories are such): a directory that
    cannot be listed gives no match and no error; hidden names do not match
    the pattern; the matches keep the listing's order and are returned as
    paths, directory included. *)
Definition glob_wav (fs : tree) (dir : string) : list string :=
  match fs dir with
  | None => []
  | Some names =>
      map (fun name => dir ++ name)%string
        (filter (fun name => negb (starts_with "." name) && ends_with ".wav" name)
           names)
  end.

End Glob.

(** A row of the manifest: [[str(experiment), str(context), str(target)]]. *)
Record condition : Set := Condition
  { experiment : string; contexts : string; targets : string }.

Definition experiments : list string := ["exp1"; "exp2a"; "exp2b"].

Definition contexts_dir (e : string) : string :=
  ("sounds/" ++ e ++ "/contexts/")%string.

Definition targets_dir (e : string) : string :=
  ("sounds/" ++ e ++ "/targets/")%string.

(** The three nested [for] loops of the cell, each carrying the list that
    [conditions.append] grows. *)
Definition conditions_for (fs : tree) (experiments : list string) : list condition :=
  fold_left
    (fun conditions e =>
       let cs := Glob.glob_wav fs (contexts_dir e) in
       let ts := Glob.glob_wav fs (targets_dir e) in
       fold_left
         (fun conditions context =>
            fold_left
              (fun conditions target =>
                 conditions ++ [Condition e context target])
              ts conditions)
         cs conditions)
    experiments [].

Definition conditions (fs : tree) : list condition :=
  conditions_for fs experiments.

(** The full cross product of the contexts with the targets of one
    experiment: every context, in order, with every target, in order. *)
Definition cross (e : string) (cs ts : list string) : list condition :=
  map (fun ct => Condition e (fst ct) (snd ct)) (list_prod cs ts).

(** A directory that is not there, or holds nothing. *)
Definition missing_or_empty (fs : tree) (dir : string) : Prop :=
  fs dir = None \/ fs dir = Some [].

(** The order of path strings. *)
Definition path_le (a b : string) : Prop := String.leb a b = true.

(** The enumeration as the spec words it: the listed paths are sorted by path
    string, then crossed. *)
Module SortedSpec.

Fixpoint insert (s : string) (l : list string) : list string :=
  match l with
  | [] => [s]
  | t :: l' => if String.leb s t then s :: l else t :: insert s l'
  end.

Definition sort (l : list string) : list string := fold_right insert [] l.

Definition enumerate_conditions (fs : tree) (experiments : list string)
  : list condition :=
  flat_map
    (fun e => cross e (sort (Glob.glob_wav fs (contexts_dir e)))
                      (sort (Glob.glob_wav fs (targets_dir e))))
    experiments.

End SortedSpec.

(* ===================================================================== *)
(** * Cell 3: the response logs *)
(* ===================================================================== *)

(** A field of a log as [pd.read_csv] delivers it (the typing of the columns
    is pandas' own and is not modelled), or the missing value. *)
Inductive cell : Set :=
| Field (raw : string)
| NaN.

(** The content of a log: the names of its header and its data rows, in file
    order. *)
Record table : Set := Table
  { header : list string; body : list (list cell) }.

(** A frame: the column names and the rows, each with its index label, an
    integer: pandas numbers the rows of what it reads, and [reset_index]
    numbers them anew. *)
Record DataFrame : Set := Frame
  { columns : list string; rows : list (Z * list cell) }.

Module Pandas.

(** The frame of a log whose rows pandas numbers itself: the header gives the
    columns, the data rows stand in file order under the index 0, 1, 2, ... *)
Definition numbered (t : table) : DataFrame :=
  Frame (header t) (combine (PyList.range (length (body t))) (body t)).

(** [df.index[[p, q, ...]]]: the labels at the given positions. *)
Definition index_at (df : DataFrame) (positions : list nat) : outcome (list Z) :=
  comprehension
    (fun p => match nth_error (rows df) p with
              | Some r => Returned (fst r)
              | None => Raised IndexError
              end)
    positions.

(** [df.drop(labels)] for labels of the frame's own index: the rows that
    bear one of them go. *)
Definition drop (df : DataFrame) (labels : list Z) : DataFrame :=
  Frame (columns df)
    (filter (fun r => negb (existsb (Z.eqb (fst r)) labels)) (rows df)).

Fixpoint position (name : string) (names : list string) : option nat :=
  match names with
  | [] => None
  | n :: names' =>
      if String.eqb name n then Some 0%nat
      else option_map S (position name names')
  end.

(** The value of a row under a column name; missing when the frame has no
    such column or the row is short. *)
Definition value_at (cols : list string) (r : list cell) (name : string) : cell :=
  match position name cols with
  | Some i => nth i r NaN
  | None => NaN
  end.

Definition has_column (cols : list string) (name : string) : bool :=
  existsb (String.eqb name) cols.

(** The columns of a concatenation: every column of every frame, once, here
    in the order of first appearance (the order pandas gives the union is of
    no consequence below, where the columns are selected by name). *)
Definition union_columns (frames : list DataFrame) : list string :=
  fold_left
    (fun cols df =>
       cols ++ filter (fun c => negb (has_column cols c)) (nodup string_dec (columns df)))
    frames [].

(** [pd.concat(frames, axis=0)]: the rows of the frames one after the other,
    each with its label, aligned to the union of the columns; a column a
    frame lacks is filled with the missing value. *)
Definition concat (frames : list DataFrame) : outcome DataFrame :=
  match frames with
  | [] => Raised ValueError
  | _ :: _ =>
      let cols := union_columns frames in
      Returned
        (Frame cols
           (flat_map
              (fun df =>
                 map (fun r => (fst r, map (value_at (columns df) (snd r)) cols))
                   (rows df))
              frames))
  end.

(** [df.reset_index(drop=True)] *)
Definition reset_index (df : DataFrame) : DataFrame :=
  Frame (columns df)
    (combine (PyList.range (length (rows df))) (map snd (rows df))).

(** [df[[name, ...]]] *)
Definition select (df : DataFrame) (names : list string) : outcome DataFrame :=
  if forallb (has_column (columns df)) names
  then Returned
         (Frame names
            (map (fun r => (fst r, map (value_at (columns df) (snd r)) names))
               (rows df)))
  else Raised KeyError.

End Pandas.

(** What a log contributes, by position: its rows from the third on, each
    with its values under the given columns, in that order. *)
Definition trials (names : list string) (the_file : table) : list (list cell) :=
  map (fun r => map (Pandas.value_at (header the_file) r) names)
    (skipn 2 (body the_file)).

Definition relevant_cols : list string :=
  ["exp_no"; "context"; "probe"; "sld_rating.response"; "sld_rating.rt";
   "participant"; "date"].

(** [pd.read_csv]: for the file at a path, the frame it returns or the
    exception it raises. The parser is pandas' own and is not modelled: a
    file it cannot parse (one of 0 bytes, one with a row of too many fields)
    makes it raise, and a log whose data rows hold more
    fields than the header is read with the leading fields as index, which
    the frames here, indexed by integers, do not describe. The cell is a
    function of the parser. *)
Definition reader : Type := string -> outcome DataFrame.

(** The log at a path is read under the default index and holds [t]: pandas
    numbers the rows itself when no data row has more fields than the header,
    and the frame it then builds has one value, or the missing value, under
    each column in every row. *)
Definition read_as (read_csv : reader) (the_file : string) (t : table) : Prop :=
  read_csv the_file = Returned (Pandas.numbered t) /\
  Forall (fun r => length r = length (header t)) (body t).

(** The body of [for the_file in data_files]: read, drop the rows labelled
    like the first two, keep. *)
Definition trimmed (read_csv : reader) (the_file : string) : outcome DataFrame :=
  current_file <- read_csv the_file ;;
  labels <- Pandas.index_at current_file [0%nat; 1%nat] ;;
  Returned (Pandas.drop current_file labels).

(** The cell from [frames = []] to the selection of the relevant columns;
    [data_files] are the paths of the logs in the order [glob] returned
    them. *)
Definition data (read_csv : reader) (data_files : list string) : outcome DataFrame :=
  frames <- fold_left
              (fun acc the_file =>
                 frames <- acc ;;
                 current_file <- trimmed read_csv the_file ;;
                 Returned (frames ++ [current_file]))
              data_files (Returned []) ;;
  data <- Pandas.concat frames ;;
  Pandas.select (Pandas.reset_index data) relevant_cols.

(* ===================================================================== *)
(** * Cell 2, continued: the manifest as a frame *)
(* ===================================================================== *)

(** [conditions = DataFrame(np.array(conditions))] and
    [conditions.columns = ['experiment', 'contexts', 'targets']]: the array
    of one or more rows of three strings has three columns, and the frame
    made of it takes the three names. The array of the empty list has no
    second axis, the frame made of it has not three columns, and the
    assignment of three names raises ValueError. *)
Definition conditions_frame (conditions : list condition) : outcome DataFrame :=
  match conditions with
  | [] => Raised ValueError
  | _ :: _ =>
      Returned
        (Frame ["experiment"; "contexts"; "targets"]
           (combine (PyList.range (length conditions))
              (map (fun c => [Field (experiment c); Field (contexts c);
                              Field (targets c)])
                 conditions)))
  end.

(** The cell from [conditions = []] to the naming of the columns. *)
Definition conditions_cell (fs : tree) (experiments : list string) : outcome DataFrame :=
  conditions_frame (conditions_for fs experiments).

(* ===================================================================== *)
(** * Sample directory trees and logs *)
(* ===================================================================== *)

(** A tree given by the listings of its directories. *)
Definition listing (dirs : list (string * list string)) : tree :=
  fun dir =>
    option_map snd (find (fun d => String.eqb (fst d) dir) dirs).

(** [exp1] with contexts a.wav, b.wav and targets x.wav, y.wav, listed in
    that order. *)
Definition tree_a_b : tree :=
  listing [("sounds/exp1/contexts/", ["a.wav"; "b.wav"]);
           ("sounds/exp1/targets/", ["x.wav"; "y.wav"])].

(** The same files, the contexts listed b.wav first. *)
Definition tree_b_a : tree :=
  listing [("sounds/exp1/contexts/", ["b.wav"; "a.wav"]);
           ("sounds/exp1/targets/", ["x.wav"; "y.wav"])].

(** [exp2a] has targets and no contexts directory; [exp2b] has one pair. *)
Definition tree_no_contexts : tree :=
  listing [("sounds/exp1/contexts/", ["a.wav"; "b.wav"]);
           ("sounds/exp1/targets/", ["x.wav"; "y.wav"]);
           ("sounds/exp2a/targets/", ["x.wav"]);
           ("sounds/exp2b/contexts/", ["c.wav"; "notes.txt"]);
           ("sounds/exp2b/targets/", ["z.wav"])].

(** A log of one participant: two practice rows, three trials; the columns
    of the experiment and one more, which the analysis does not use. *)
Definition sample_log : table :=
  Table
    ["exp_no"; "context"; "probe"; "sld_rating.response"; "sld_rating.rt";
     "participant"; "date"; "frameRate"]
    [[Field "0"; Field "asc_maj"; Field "00"; Field "4"; Field "1.9";
      Field "p01"; Field "2015_Mar_02"; Field "60.1"];
     [Field "0"; Field "asc_maj"; Field "06"; Field "2"; Field "2.4";
      Field "p01"; Field "2015_Mar_02"; Field "60.1"];
     [Field "1a"; Field "asc_maj"; Field "00"; Field "7"; Field "1.1";
      Field "p01"; Field "2015_Mar_02"; Field "60.1"];
     [Field "1a"; Field "asc_maj"; Field "01"; Field "2"; Field "1.6";
      Field "p01"; Field "2015_Mar_02"; Field "60.1"];
     [Field "1a"; Field "asc_maj"; Field "02"; Field "4"; Field "1.3";
      Field "p01"; Field "2015_Mar_02"; Field "60.1"]].

(* ===================================================================== *)
(** * Cell 3, continued: the trials of experiment 1a *)
(* ===================================================================== *)

(** [line == '1a'] *)
Definition is_1a (line : cell) : bool :=
  match line with
  | Field raw => String.eqb raw "1a"
  | NaN => false
  end.

(** A column of a frame that has it, as the sequence a [for] runs over. *)
Definition series (df : DataFrame) (name : string) : list cell :=
  map (fun r => Pandas.value_at (columns df) (snd r) name) (rows df).

(** [exp1a = []; for line in data.exp_no: if line == '1a': exp1a.append(line)];
    [data] has the column, being the selection of the relevant ones. *)
Definition exp1a (read_csv : reader) (data_files : list string) : outcome (list cell) :=
  d <- data read_csv data_files ;;
  Returned
    (fold_left
       (fun exp1a line => if is_1a line then exp1a ++ [line] else exp1a)
       (series d "exp_no") []).

(** The rows of a log, its first two apart, whose [exp_no] is ['1a']. *)
Definition trials_1a (the_file : table) : list (list cell) :=
  filter (fun r => is_1a (Pandas.value_at (header the_file) r "exp_no"))
    (skipn 2 (body the_file)).

(** A log with fewer than two data rows. *)
Definition short (the_file : table) : Prop := (length (body the_file) < 2)%nat.

(** A column that some log has. *)
Definition covered (logs : list table) (c : string) : Prop :=
  Exists (fun t => In c (header t)) logs.

(** A reader for the sample runs. It finds the sample log under two names, a
    log of one data row, a log of two columns and a file of 0 bytes, which
    cannot be parsed; it is asked for no other path. *)
Definition sample_reader : reader :=
  fun path =>
    if String.eqb path "data/p01.csv" then Returned (Pandas.numbered sample_log)
    else if String.eqb path "data/p02.csv" then Returned (Pandas.numbered sample_log)
    else if String.eqb path "data/one_row.csv"
    then Returned (Pandas.numbered (Table (header sample_log) (firstn 1 (body sample_log))))
    else if String.eqb path "data/two_columns.csv"
    then Returned
           (Pandas.numbered
              (Table ["exp_no"; "context"]
                 [[Field "0"; Field "asc_maj"]; [Field "0"; Field "asc_maj"];
                  [Field "1a"; Field "asc_maj"]]))
    else Raised ValueError.

(** A directory that lists no name twice. *)
Definition listed_once (fs : tree) (dir : string) : Prop :=
  forall names, fs dir = Some names -> NoDup names.

(* ===================================================================== *)
(** * Decision procedures used in the proofs *)
(* ===================================================================== *)

(** Entry-wise [==] of two float vectors. *)
Definition same_floats (x y : list float) : bool :=
  Nat.eqb (length x) (length y)
  && forallb (fun ab => PrimFloat.eqb (fst ab) (snd ab)) (combine x y).

(** All pairs of positions below [n] pass the test. *)
Definition all_pairs (n : nat) (test : nat -> nat -> bool) : bool :=
  forallb (fun i => forallb (test i) (seq 0 n)) (seq 0 n).

(** Entries [i, j] and [j, i] of a matrix exist and agree within [tol]. *)
Definition symmetric_at (tol : float) (m : list (list float)) (i j : nat) : bool :=
  match entry m i j, entry m j i with
  | Some a, Some b => Stats.within tol a b
  | _, _ => false
  end.

(** Entry [i, i] of a matrix exists and is 1.0 within [tol]. *)
Definition unit_at (tol : float) (m : list (list float)) (i : nat) : bool :=
  match entry m i i with
  | Some a => Stats.within tol a 1%float
  | None => false
  end.

(** The call returned NaN. *)
Definition returned_nan (c : outcome float) : bool :=
  match c with
  | Returned r => PrimFloat.is_nan r
  | Raised _ => false
  end.

(* ===================================================================== *)
(** * Rotation lemmas *)
(* ===================================================================== *)

Section RotateFacts.
Context {A : Type}.
Implicit Types (l : list A) (k : Z).

Lemma clamp_in_range (len : nat) k :
  0 <= k <= Z.of_nat len -> PyList.clamp len k = Z.to_nat k.
Proof.
  intros Hk. unfold PyList.clamp.
  destruct (Z.ltb_spec k 0) as [Hneg | _]; [lia |].
  rewrite Z.min_l by lia. reflexivity.
Qed.

Lemma clamp_beyond (len : nat) k :
  Z.of_nat len <= k -> PyList.clamp len k = len.
Proof.
  intros Hk. unfold PyList.clamp.
  destruct (Z.ltb_spec k 0) as [Hneg | _]; [lia |].
  rewrite Z.min_r by lia. apply Nat2Z.id.
Qed.

Lemma clamp_far_below (len : nat) k :
  k <= - Z.of_nat len -> k < 0 -> PyList.clamp len k = 0%nat.
Proof.
  intros Hk Hneg. unfold PyList.clamp.
  destruct (Z.ltb_spec k 0) as [_ | Hpos]; [| lia].
  rewrite Z.max_r by lia. reflexivity.
Qed.

Lemma clamp_negative (len : nat) k :
  - Z.of_nat len <= k < 0 -> PyList.clamp len k = Z.to_nat (Z.of_nat len + k).
Proof.
  intros Hk. unfold PyList.clamp.
  destruct (Z.ltb_spec k 0) as [_ | Hpos]; [| lia].
  rewrite Z.max_l by lia. reflexivity.
Qed.

(** Rotating by an integer always returns. *)
Lemma rotate_int l k :
  rotate l (PyInt k) =
  Returned (skipn (PyList.clamp (length l) k) l
            ++ firstn (PyList.clamp (length l) k) l).
Proof. reflexivity. Qed.

Lemma rotate_int_length l k :
  exists r, rotate l (PyInt k) = Returned r /\ length r = length l.
Proof.
  eexists. split; [apply rotate_int |].
  rewrite length_app, length_skipn, length_firstn. lia.
Qed.

(** The entries of [skipn n l ++ firstn n l], for [n] within the list. *)
Lemma nth_error_skipn_firstn l (n i : nat) :
  (n <= length l)%nat -> (i < length l)%nat ->
  nth_error (skipn n l ++ firstn n l) i =
  nth_error l ((i + n) mod length l).
Proof.
  intros Hn Hi.
  destruct (Nat.lt_ge_cases i (length l - n)) as [Hlo | Hhi].
  - rewrite nth_error_app1 by (rewrite length_skipn; lia).
    rewrite nth_error_skipn.
    rewrite Nat.mod_small by lia. f_equal. lia.
  - rewrite nth_error_app2 by (rewrite length_skipn; lia).
    rewrite length_skipn.
    rewrite nth_error_firstn.
    destruct (Nat.ltb_spec (i - (length l - n)) n) as [_ | Hge]; [| lia].
    replace ((i + n) mod length l)%nat with (i - (length l - n))%nat;
      [reflexivity |].
    apply Nat.mod_unique with (q := 1%nat); lia.
Qed.

(** A rotation to a position beyond the end leaves the list as it is. *)
Lemma rotate_beyond l k :
  Z.of_nat (length l) <= k -> rotate l (PyInt k) = Returned l.
Proof.
  intros Hk. rewrite rotate_int, clamp_beyond by exact Hk.
  rewrite skipn_all, firstn_all. reflexivity.
Qed.

(** [None] as position gives the list twice; a position that is no integer
    is refused by the slice. *)
Lemma rotate_none l : rotate l PyNone = Returned (l ++ l).
Proof. reflexivity. Qed.

Lemma rotate_not_an_index l (k : pyval) :
  (exists f, k = PyFloat f) \/ (exists s, k = PyStr s) ->
  rotate l k = Raised TypeError.
Proof. intros [[f ->] | [s ->]]; reflexivity. Qed.

(** A rotation to a position at least a whole list before the start leaves
    the list as it is, too. *)
Lemma rotate_far_below l k :
  k <= - Z.of_nat (length l) -> k < 0 -> rotate l (PyInt k) = Returned l.
Proof.
  intros Hk Hneg. rewrite rotate_int, clamp_far_below by assumption.
  simpl. rewrite app_nil_r. reflexivity.
Qed.

End RotateFacts.

(* ===================================================================== *)
(** * The key profiles *)
(* ===================================================================== *)

Lemma profile_rotate (pitch_class : pyval) (mode : string) :
  profile pitch_class mode = rotate (base mode) pitch_class.
Proof. unfold profile, base. destruct (String.eqb mode "major"); reflexivity. Qed.

Lemma base_length (mode : string) : length (base mode) = 12%nat.
Proof. unfold base. destruct (String.eqb mode "major"); reflexivity. Qed.

(** Every integer pitch class gets a profile: some rotation of the base
    vector, of 12 entries. *)
Lemma profile_int_returns (tonic : Z) (mode : string) :
  exists n : nat,
    (n <= 12)%nat /\
    profile (PyInt tonic) mode =
    Returned (skipn n (base mode) ++ firstn n (base mode)).
Proof.
  exists (PyList.clamp 12 tonic). split.
  - unfold PyList.clamp.
    destruct (Z.ltb_spec tonic 0); lia.
  - rewrite profile_rotate, rotate_int, base_length. reflexivity.
Qed.

(** C1: for every tonic in [0,11] and mode in {major, minor},
    [profile(tonic, mode)] is the left rotation of the base vector of the
    mode: it has 12 entries and entry [i] is entry [(i + tonic) mod 12] of
    the base vector; [profile(0, 'major')] is [KK_major] unchanged and
    [profile(1, 'major')] is
    [2.23, 3.48, 2.33, 4.38, 4.09, 2.52, 5.19, 2.39, 3.66, 2.29, 2.88, 6.35]. *)
Theorem C1_profile_is_left_rotation :
  (forall (tonic : Z) (mode : string),
      0 <= tonic <= 11 -> In mode modes ->
      exists values,
        profile (PyInt tonic) mode = Returned values /\
        length values = 12%nat /\
        forall i : nat, (i < 12)%nat ->
          nth_error values i =
          nth_error (base mode) (Z.to_nat ((Z.of_nat i + tonic) mod 12)))
  /\ profile (PyInt 0) "major" = Returned KK_major
  /\ profile (PyInt 1) "major" =
     Returned [2.23; 3.48; 2.33; 4.38; 4.09; 2.52; 5.19; 2.39; 3.66; 2.29;
               2.88; 6.35]%float.
Proof.
  split; [| split; reflexivity].
  intros tonic mode Htonic _.
  rewrite profile_rotate, rotate_int, base_length.
  rewrite clamp_in_range by (simpl; lia).
  eexists. split; [reflexivity |]. split.
  - rewrite length_app, length_skipn, length_firstn, base_length. lia.
  - intros i Hi.
    rewrite nth_error_skipn_firstn by (rewrite base_length; lia).
    rewrite base_length. f_equal.
    apply Nat2Z.inj.
    rewrite Nat2Z.inj_mod, Nat2Z.inj_add, !Z2Nat.id; try lia.
    apply Z.mod_pos_bound. lia.
Qed.

Lemma C1_witness :
  exists values,
    profile (PyInt 7) "minor" = Returned values /\
    length values = 12%nat /\
    forall i : nat, (i < 12)%nat ->
      nth_error values i =
      nth_error (base "minor") (Z.to_nat ((Z.of_nat i + 7) mod 12)).
Proof.
  apply (proj1 C1_profile_is_left_rotation 7 "minor").
  - lia.
  - simpl. right. left. reflexivity.
Defined.

(** What a comprehension returns holds, position by position, what its
    element expression returned. *)
Lemma comprehension_nth {A B : Type} (f : A -> outcome B) (l : list A) (bs : list B) :
  comprehension f l = Returned bs ->
  length bs = length l /\
  forall (i : nat) (a : A), nth_error l i = Some a ->
    exists b, f a = Returned b /\ nth_error bs i = Some b.
Proof.
  revert bs. induction l as [| a0 l IH]; intros bs Hc; simpl in Hc.
  - injection Hc as <-. split; [reflexivity |].
    intros [| i] a Hnth; discriminate.
  - destruct (f a0) as [b0 | e] eqn:Hf; simpl in Hc; [| discriminate].
    destruct (comprehension f l) as [bs' | e] eqn:Hrest; simpl in Hc;
      [| discriminate].
    injection Hc as <-.
    destruct (IH bs' eq_refl) as [Hlen Hnth]. split; [simpl; congruence |].
    intros [| i] a Ha; simpl in Ha.
    + injection Ha as <-. exists b0. split; [exact Hf | reflexivity].
    + apply (Hnth i a Ha).
Qed.

(** A comprehension over an expression that never raises returns. *)
Lemma comprehension_returns {A B : Type} (f : A -> outcome B) (g : A -> B)
      (l : list A) :
  (forall a, In a l -> f a = Returned (g a)) ->
  comprehension f l = Returned (map g l).
Proof.
  induction l as [| a l IH]; intros Hf; simpl; [reflexivity |].
  rewrite (Hf a) by (left; reflexivity). simpl.
  rewrite IH by (intros a' Ha'; apply Hf; right; exact Ha'). reflexivity.
Qed.

(** The pairs [(i, m)] the comprehension of [key_ratings] runs over: the pair
    of tonic [t] and the mode at position [m] stands at position [2t + m]. *)
Lemma key_order (t : Z) (m : nat) (mode : string) :
  0 <= t <= 11 -> nth_error modes m = Some mode ->
  nth_error (flat_map (fun i => map (fun m => (i, m)) modes) (PyList.range 12))
    (2 * Z.to_nat t + m) = Some (t, mode).
Proof.
  intros Ht Hm.
  assert (Hm2 : (m < 2)%nat).
  { change 2%nat with (length modes). apply nth_error_Some.
    rewrite Hm. discriminate. }
  assert (Hcases : exists n : nat, (n < 12)%nat /\ t = Z.of_nat n).
  { exists (Z.to_nat t). lia. }
  destruct Hcases as (n & Hn & ->). rewrite Nat2Z.id.
  do 12 (destruct n as [| n];
         [destruct m as [| [| m]]; [simpl in Hm |- *; congruence .. | lia] |]).
  lia.
Qed.

(** C2: [key_ratings] holds exactly 24 profiles, and the one at position
    [2*t + m] (m = 0 for major, 1 for minor) is [profile(t, mode m)], for
    every t in [0,11]: tonic 0 major, tonic 0 minor, tonic 1 major, ...,
    tonic 11 minor. *)
Theorem C2_key_ratings_order :
  exists ks,
    key_ratings = Returned ks /\
    length ks = 24%nat /\
    forall (t : Z) (m : nat) (mode : string),
      0 <= t <= 11 -> nth_error modes m = Some mode ->
      exists values,
        profile (PyInt t) mode = Returned values /\
        nth_error ks (2 * Z.to_nat t + m) = Some values.
Proof.
  destruct key_ratings as [ks | e] eqn:Hks; [| vm_compute in Hks; discriminate].
  exists ks. split; [reflexivity |].
  apply comprehension_nth in Hks. destruct Hks as [Hlen Hnth].
  split; [rewrite Hlen; reflexivity |].
  intros t m mode Ht Hm.
  destruct (Hnth _ _ (key_order t m mode Ht Hm)) as (values & Hp & Hv).
  exists values. split; assumption.
Qed.

Lemma C2_witness :
  exists ks,
    key_ratings = Returned ks /\
    length ks = 24%nat /\
    exists values,
      profile (PyInt 11) "minor" = Returned values /\
      nth_error ks 23 = Some values.
Proof.
  destruct C2_key_ratings_order as (ks & Hks & Hlen & Hat).
  exists ks. split; [exact Hks |]. split; [exact Hlen |].
  apply (Hat 11 1%nat "minor"); [lia | reflexivity].
Defined.

(** Two float vectors that differ under [==] are different lists. *)
Lemma same_floats_differ (x y : list float) :
  same_floats x x = true -> same_floats x y = false -> x <> y.
Proof. intros Hxx Hxy ->. congruence. Qed.

Lemma returned_inj {A : Type} (a b : A) : Returned a = Returned b -> a = b.
Proof. intros H. injection H as ->. reflexivity. Qed.

(** A rotation by 1 to 11 positions moves the entries of either base
    vector. *)
Lemma profile_moved (r : Z) (mode : string) :
  1 <= r <= 11 -> profile (PyInt r) mode <> Returned (base mode).
Proof.
  intros Hr.
  assert (Hcases : exists n : nat, (n < 11)%nat /\ r = Z.of_nat (S n)).
  { exists (Z.to_nat (r - 1)). lia. }
  destruct Hcases as (n & Hn & ->).
  rewrite profile_rotate. unfold base.
  destruct (String.eqb mode "major");
    do 11 (destruct n as [| n];
           [intros H; apply returned_inj in H; revert H;
            apply same_floats_differ; vm_compute; reflexivity |]);
    lia.
Qed.

(** C10: for every integer tonic >= 12 and either mode, [profile(tonic, mode)]
    raises nothing and returns the base vector unrotated, which is
    [profile(0, mode)]: [l[k:]] is empty and [l[:k]] is the whole list. The
    tonic is not taken modulo 12: where [tonic mod 12] is not 0, the result
    differs from [profile(tonic mod 12, mode)]. *)
Theorem C10_tonic_beyond_range_aliases_tonic_zero :
  forall (tonic : Z) (mode : string),
    12 <= tonic ->
    PyList.slice_from (base mode) (Some tonic) = [] /\
    PyList.slice_to (base mode) (Some tonic) = base mode /\
    profile (PyInt tonic) mode = Returned (base mode) /\
    profile (PyInt tonic) mode = profile (PyInt 0) mode /\
    (tonic mod 12 <> 0 ->
     profile (PyInt tonic) mode <> profile (PyInt (tonic mod 12)) mode).
Proof.
  intros tonic mode Htonic.
  assert (Hret : profile (PyInt tonic) mode = Returned (base mode)).
  { rewrite profile_rotate. apply rotate_beyond. rewrite base_length. simpl. lia. }
  assert (Hclamp : PyList.clamp (length (base mode)) tonic = length (base mode)).
  { apply clamp_beyond. rewrite base_length. simpl. lia. }
  repeat split.
  - unfold PyList.slice_from. rewrite Hclamp. apply skipn_all.
  - unfold PyList.slice_to. rewrite Hclamp. apply firstn_all.
  - exact Hret.
  - rewrite Hret, profile_rotate. unfold base.
    destruct (String.eqb mode "major"); reflexivity.
  - intros Hmod. rewrite Hret. intros Heq. symmetry in Heq. revert Heq.
    apply profile_moved.
    pose proof (Z.mod_pos_bound tonic 12 ltac:(lia)). lia.
Qed.

Lemma C10_witness :
  profile (PyInt 13) "major" = Returned KK_major /\
  profile (PyInt 13) "major" = profile (PyInt 0) "major" /\
  profile (PyInt 13) "major" <> profile (PyInt 1) "major".
Proof.
  destruct (C10_tonic_beyond_range_aliases_tonic_zero 13 "major" ltac:(lia))
    as (_ & _ & Hret & Hzero & Hmod).
  split; [exact Hret |]. split; [exact Hzero |].
  apply Hmod. vm_compute. discriminate.
Defined.

(** C6, as the code has it: [profile] checks nothing. For every integer
    tonic, in [0,11] or not, and either mode it raises no error and returns
    12 values, a rotation of the base vector; a tonic of 12 or more, or of
    -12 or less, gives the base vector unrotated. *)
Theorem C6_profile_never_rejects_a_tonic :
  forall (tonic : Z) (mode : string),
    (exists values,
        profile (PyInt tonic) mode = Returned values /\
        length values = 12%nat /\
        exists n : nat,
          (n <= 12)%nat /\
          values = skipn n (base mode) ++ firstn n (base mode))
    /\ (forall e, profile (PyInt tonic) mode <> Raised e)
    /\ (tonic <= -12 \/ 12 <= tonic ->
        profile (PyInt tonic) mode = Returned (base mode)).
Proof.
  intros tonic mode.
  destruct (profile_int_returns tonic mode) as (n & Hn & Hp).
  split; [| split].
  - eexists. split; [exact Hp |]. split.
    + rewrite length_app, length_skipn, length_firstn, base_length. lia.
    + exists n. split; [exact Hn | reflexivity].
  - intros e. rewrite Hp. discriminate.
  - intros [Hlow | Hhigh]; rewrite profile_rotate.
    + apply rotate_far_below; rewrite ?base_length; simpl; lia.
    + apply rotate_beyond. rewrite base_length. simpl. lia.
Qed.

Lemma C6_witness : profile (PyInt (-12)) "minor" = Returned KK_minor.
Proof.
  apply (proj2 (proj2 (C6_profile_never_rejects_a_tonic (-12) "minor"))).
  left. lia.
Defined.

(** C6 as stated fails: tonics 12 and -1 are outside [0,11], and the call
    returns a profile for each instead of failing. *)
Lemma C6_counterexample :
  ~ (forall (tonic : Z) (mode : string),
        tonic < 0 \/ 11 < tonic -> In mode modes ->
        exists e, profile (PyInt tonic) mode = Raised e)
  /\ profile (PyInt 12) "major" = Returned KK_major
  /\ profile (PyInt (-1)) "major" =
     Returned [2.88; 6.35; 2.23; 3.48; 2.33; 4.38; 4.09; 2.52; 5.19; 2.39;
               3.66; 2.29]%float.
Proof.
  split; [| split; reflexivity].
  intros Hclaim.
  destruct (Hclaim 12 "major") as [e He].
  - right. lia.
  - left. reflexivity.
  - discriminate He.
Qed.

(* ===================================================================== *)
(** * The matrix of correlations *)
(* ===================================================================== *)

Lemma all_pairs_spec (n : nat) (test : nat -> nat -> bool) :
  all_pairs n test = true ->
  forall i j : nat, (i < n)%nat -> (j < n)%nat -> test i j = true.
Proof.
  unfold all_pairs. intros Hall i j Hi Hj.
  rewrite forallb_forall in Hall.
  specialize (Hall i ltac:(apply in_seq; lia)).
  rewrite forallb_forall in Hall.
  apply Hall, in_seq. lia.
Qed.

(** The matrix is there: no call of the cell raises. *)
Lemma key_distances_returns :
  exists M, key_distances = Returned M /\ length M = 24%nat
            /\ Forall (fun row => length row = 24%nat) M.
Proof.
  destruct key_distances as [M | e] eqn:HM; [| vm_compute in HM; discriminate].
  exists M. split; [reflexivity |].
  assert (Hsize : match key_distances with
                  | Returned M =>
                      Nat.eqb (length M) 24
                      && forallb (fun row => Nat.eqb (length row) 24) M
                  | Raised _ => false
                  end = true) by (vm_compute; reflexivity).
  rewrite HM in Hsize. apply andb_prop in Hsize as [Hlen Hrows].
  split; [apply Nat.eqb_eq, Hlen |].
  apply Forall_forall. intros row Hrow.
  rewrite forallb_forall in Hrows. apply Nat.eqb_eq, Hrows, Hrow.
Qed.

(** C3: the 24 x 24 matrix [key_distances] is symmetric: for all i, j in
    [0,23] the entries [i, j] and [j, i] differ by at most 1e-9. *)
Theorem C3_key_distances_symmetric :
  exists M,
    key_distances = Returned M /\
    forall i j : nat, (i < 24)%nat -> (j < 24)%nat ->
      exists a b,
        entry M i j = Some a /\ entry M j i = Some b /\
        Stats.within 1e-9 a b = true.
Proof.
  destruct key_distances_returns as (M & HM & _).
  exists M. split; [exact HM |].
  assert (Hall : match key_distances with
                 | Returned M => all_pairs 24 (symmetric_at 1e-9 M)
                 | Raised _ => false
                 end = true) by (vm_compute; reflexivity).
  rewrite HM in Hall.
  intros i j Hi Hj.
  pose proof (all_pairs_spec _ _ Hall i j Hi Hj) as Hij.
  unfold symmetric_at in Hij.
  destruct (entry M i j) as [a |]; [| discriminate].
  destruct (entry M j i) as [b |]; [| discriminate].
  exists a, b. repeat split. exact Hij.
Qed.

Lemma C3_witness :
  exists M a b,
    key_distances = Returned M /\
    entry M 3 20 = Some a /\ entry M 20 3 = Some b /\
    Stats.within 1e-9 a b = true.
Proof.
  destruct C3_key_distances_symmetric as (M & HM & Hsym).
  destruct (Hsym 3%nat 20%nat ltac:(lia) ltac:(lia)) as (a & b & Ha & Hb & Hab).
  exists M, a, b. repeat split; assumption.
Defined.

(** C4: every diagonal entry of [key_distances] is 1.0 within 1e-9, for all
    24 indices. *)
Theorem C4_key_distances_diagonal :
  exists M,
    key_distances = Returned M /\
    forall i : nat, (i < 24)%nat ->
      exists a, entry M i i = Some a /\ Stats.within 1e-9 a 1%float = true.
Proof.
  destruct key_distances_returns as (M & HM & _).
  exists M. split; [exact HM |].
  assert (Hall : match key_distances with
                 | Returned M => forallb (unit_at 1e-9 M) (seq 0 24)
                 | Raised _ => false
                 end = true) by (vm_compute; reflexivity).
  rewrite HM in Hall. rewrite forallb_forall in Hall.
  intros i Hi.
  specialize (Hall i ltac:(apply in_seq; lia)).
  unfold unit_at in Hall.
  destruct (entry M i i) as [a |]; [| discriminate].
  exists a. split; [reflexivity | exact Hall].
Qed.

Lemma C4_witness :
  exists M a,
    key_distances = Returned M /\
    entry M 23 23 = Some a /\ Stats.within 1e-9 a 1%float = true.
Proof.
  destruct C4_key_distances_diagonal as (M & HM & Hdiag).
  destruct (Hdiag 23%nat ltac:(lia)) as (a & Ha & Hone).
  exists M, a. repeat split; assumption.
Defined.

(** C5 as stated fails: the chromatic vector is constant, and its
    correlation with the C-major profile is returned, and is NaN. *)
Lemma C5_counterexample :
  ~ (forall x y : list float,
        length x = 12%nat -> length y = 12%nat ->
        (forall a b, In a x -> In b x -> a = b) ->
        exists e, Stats.pearsonr x y = Raised e)
  /\ Stats.pearsonr chro KK_major = Returned PrimFloat.nan.
Proof.
  split; [| vm_compute; reflexivity].
  intros Hclaim.
  destruct (Hclaim chro KK_major eq_refl eq_refl) as [e He].
  - intros a b Ha Hb. simpl in Ha, Hb.
    repeat (destruct Ha as [<- | Ha]; [| try contradiction]);
      repeat (destruct Hb as [<- | Hb]; [| try contradiction]);
      reflexivity.
  - vm_compute in He. discriminate He.
Qed.

(** C5, as the code has it: the cell calls the correlation bare, with no
    zero-variance guard. Each of its 24 x 24 calls on the key profiles
    returns a number, none raises, and none of the numbers is NaN. A constant
    vector is not refused: for the chromatic vector against each of the 24
    key profiles, in either order, the number returned is NaN, silently. *)
Theorem C5_no_zero_variance_guard :
  (exists M,
      key_distances = Returned M /\
      length M = 24%nat /\
      Forall (fun row => length row = 24%nat) M /\
      forall row r, In row M -> In r row -> PrimFloat.is_nan r = false)
  /\ (exists ks,
        key_ratings = Returned ks /\
        forall k, In k ks ->
          returned_nan (Stats.pearsonr chro k) = true /\
          returned_nan (Stats.pearsonr k chro) = true).
Proof.
  split.
  - destruct key_distances_returns as (M & HM & Hlen & Hrows).
    exists M. split; [exact HM |]. split; [exact Hlen |]. split; [exact Hrows |].
    assert (Hall : match key_distances with
                   | Returned M =>
                       forallb (forallb (fun r => negb (PrimFloat.is_nan r))) M
                   | Raised _ => false
                   end = true) by (vm_compute; reflexivity).
    rewrite HM in Hall. rewrite forallb_forall in Hall.
    intros row r Hrow Hr.
    specialize (Hall row Hrow). rewrite forallb_forall in Hall.
    apply negb_true_iff, Hall, Hr.
  - destruct key_ratings as [ks | e] eqn:Hks; [| vm_compute in Hks; discriminate].
    exists ks. split; [reflexivity |].
    assert (Hall : match key_ratings with
                   | Returned ks =>
                       forallb (fun k => returned_nan (Stats.pearsonr chro k)
                                         && returned_nan (Stats.pearsonr k chro)) ks
                   | Raised _ => false
                   end = true) by (vm_compute; reflexivity).
    rewrite Hks in Hall. rewrite forallb_forall in Hall.
    intros k Hk. apply andb_prop, Hall, Hk.
Qed.

Lemma C5_witness :
  returned_nan (Stats.pearsonr chro KK_minor) = true /\
  returned_nan (Stats.pearsonr KK_minor chro) = true.
Proof.
  destruct C5_no_zero_variance_guard as (_ & ks & Hks & Hnan).
  apply Hnan.
  vm_compute in Hks. injection Hks as <-.
  right. left. reflexivity.
Defined.

(* ===================================================================== *)
(** * The conditions manifest *)
(* ===================================================================== *)

Section Conditions.
Variable fs : tree.

Lemma targets_loop (e context : string) (ts : list string) (acc : list condition) :
  fold_left (fun conditions target => conditions ++ [Condition e context target])
    ts acc
  = acc ++ map (Condition e context) ts.
Proof.
  revert acc. induction ts as [| t ts IH]; intros acc; simpl.
  - symmetry. apply app_nil_r.
  - rewrite IH, <- app_assoc. reflexivity.
Qed.

Lemma cross_cons (e c : string) (cs ts : list string) :
  cross e (c :: cs) ts = map (Condition e c) ts ++ cross e cs ts.
Proof.
  unfold cross. simpl. rewrite map_app, map_map. reflexivity.
Qed.

Lemma contexts_loop (e : string) (cs ts : list string) (acc : list condition) :
  fold_left
    (fun conditions context =>
       fold_left
         (fun conditions target => conditions ++ [Condition e context target])
         ts conditions)
    cs acc
  = acc ++ cross e cs ts.
Proof.
  revert acc. induction cs as [| c cs IH]; intros acc; simpl.
  - symmetry. apply app_nil_r.
  - rewrite targets_loop, IH, cross_cons, app_assoc. reflexivity.
Qed.

Lemma experiments_loop (exps : list string) (acc : list condition) :
  fold_left
    (fun conditions e =>
       let cs := Glob.glob_wav fs (contexts_dir e) in
       let ts := Glob.glob_wav fs (targets_dir e) in
       fold_left
         (fun conditions context =>
            fold_left
              (fun conditions target =>
                 conditions ++ [Condition e context target])
              ts conditions)
         cs conditions)
    exps acc
  = acc ++ flat_map
             (fun e => cross e (Glob.glob_wav fs (contexts_dir e))
                               (Glob.glob_wav fs (targets_dir e)))
             exps.
Proof.
  revert acc. induction exps as [| e exps IH]; intros acc; simpl.
  - symmetry. apply app_nil_r.
  - rewrite contexts_loop, IH, app_assoc. reflexivity.
Qed.

(** The loops build, experiment after experiment, the cross product of what
    the two listings returned. *)
Lemma conditions_for_cross (exps : list string) :
  conditions_for fs exps
  = flat_map
      (fun e => cross e (Glob.glob_wav fs (contexts_dir e))
                        (Glob.glob_wav fs (targets_dir e)))
      exps.
Proof. unfold conditions_for. apply experiments_loop. Qed.

(** The manifest of the notebook: its three experiments, in this order. *)
Lemma conditions_notebook :
  conditions fs
  = cross "exp1" (Glob.glob_wav fs (contexts_dir "exp1"))
                 (Glob.glob_wav fs (targets_dir "exp1"))
    ++ cross "exp2a" (Glob.glob_wav fs (contexts_dir "exp2a"))
                     (Glob.glob_wav fs (targets_dir "exp2a"))
    ++ cross "exp2b" (Glob.glob_wav fs (contexts_dir "exp2b"))
                     (Glob.glob_wav fs (targets_dir "exp2b")).
Proof.
  unfold conditions. rewrite conditions_for_cross. simpl.
  rewrite app_nil_r. reflexivity.
Qed.

Lemma glob_wav_nothing (dir : string) :
  missing_or_empty fs dir -> Glob.glob_wav fs dir = [].
Proof.
  unfold Glob.glob_wav. intros [-> | ->]; reflexivity.
Qed.

Lemma cross_nil_l (e : string) (ts : list string) : cross e [] ts = [].
Proof. reflexivity. Qed.

Lemma cross_nil_r (e : string) (cs : list string) : cross e cs [] = [].
Proof.
  induction cs as [| c cs IH]; [reflexivity |].
  rewrite cross_cons, IH. reflexivity.
Qed.

Lemma cross_length (e : string) (cs ts : list string) :
  length (cross e cs ts) = (length cs * length ts)%nat.
Proof. unfold cross. rewrite length_map. apply length_prod. Qed.

End Conditions.

Lemma flat_map_agree {A B : Type} (f g : A -> list B) (l : list A) :
  (forall a, In a l -> f a = g a) -> flat_map f l = flat_map g l.
Proof.
  induction l as [| a l IH]; intros Hfg; simpl; [reflexivity |].
  rewrite (Hfg a) by (left; reflexivity).
  rewrite IH by (intros a' Ha'; apply Hfg; right; exact Ha'). reflexivity.
Qed.

Lemma insert_head (s : string) (l : list string) :
  HdRel path_le s l -> SortedSpec.insert s l = s :: l.
Proof.
  intros [| t l' Hst]; simpl; [reflexivity |].
  unfold path_le in Hst. rewrite Hst. reflexivity.
Qed.

(** Sorting leaves a sorted listing as it is. *)
Lemma sort_sorted (l : list string) : Sorted path_le l -> SortedSpec.sort l = l.
Proof.
  induction 1 as [| s l Hsorted IH Hhd]; [reflexivity |].
  unfold SortedSpec.sort in *. simpl. rewrite IH. apply insert_head, Hhd.
Qed.

(** C7 as stated fails: with the contexts listed b.wav first, the conditions
    come b before a, which is not the sorted-then-crossed order. *)
Lemma C7_counterexample :
  conditions_for tree_b_a ["exp1"]
  = [Condition "exp1" "sounds/exp1/contexts/b.wav" "sounds/exp1/targets/x.wav";
     Condition "exp1" "sounds/exp1/contexts/b.wav" "sounds/exp1/targets/y.wav";
     Condition "exp1" "sounds/exp1/contexts/a.wav" "sounds/exp1/targets/x.wav";
     Condition "exp1" "sounds/exp1/contexts/a.wav" "sounds/exp1/targets/y.wav"]
  /\ conditions_for tree_b_a ["exp1"]
     <> SortedSpec.enumerate_conditions tree_b_a ["exp1"].
Proof.
  split; [reflexivity |].
  vm_compute. intros H. discriminate H.
Qed.

(** C7, as the code has it: for each experiment id the conditions are exactly
    the full cross product of its context files with its target files, each
    tagged with the experiment id, contexts outermost, in the order in which
    the two directory listings return the paths; nothing sorts them. Where
    the listings are in path order the result is the sorted-then-crossed one:
    with contexts a.wav, b.wav and targets x.wav, y.wav listed so, the 4
    conditions (exp1,a,x), (exp1,a,y), (exp1,b,x), (exp1,b,y) in this order. *)
Theorem C7_conditions_cross_in_listing_order :
  (forall (fs : tree) (exps : list string),
      conditions_for fs exps
      = flat_map
          (fun e => cross e (Glob.glob_wav fs (contexts_dir e))
                            (Glob.glob_wav fs (targets_dir e)))
          exps)
  /\ (forall (fs : tree) (exps : list string),
        (forall e, In e exps ->
                   Sorted path_le (Glob.glob_wav fs (contexts_dir e)) /\
                   Sorted path_le (Glob.glob_wav fs (targets_dir e))) ->
        conditions_for fs exps = SortedSpec.enumerate_conditions fs exps)
  /\ conditions_for tree_a_b ["exp1"]
     = [Condition "exp1" "sounds/exp1/contexts/a.wav" "sounds/exp1/targets/x.wav";
        Condition "exp1" "sounds/exp1/contexts/a.wav" "sounds/exp1/targets/y.wav";
        Condition "exp1" "sounds/exp1/contexts/b.wav" "sounds/exp1/targets/x.wav";
        Condition "exp1" "sounds/exp1/contexts/b.wav" "sounds/exp1/targets/y.wav"].
Proof.
  split; [exact conditions_for_cross |]. split; [| reflexivity].
  intros fs exps Hsorted.
  rewrite conditions_for_cross. unfold SortedSpec.enumerate_conditions.
  apply flat_map_agree. intros e He.
  destruct (Hsorted e He) as [Hcs Hts].
  rewrite (sort_sorted _ Hcs), (sort_sorted _ Hts). reflexivity.
Qed.

Lemma C7_witness :
  conditions_for tree_a_b ["exp1"]
  = SortedSpec.enumerate_conditions tree_a_b ["exp1"].
Proof.
  apply (proj1 (proj2 C7_conditions_cross_in_listing_order) tree_a_b ["exp1"]).
  intros e [<- | []].
  split; vm_compute; repeat constructor.
Defined.

Lemma map_snd_combine {A B : Type} (l1 : list A) (l2 : list B) :
  length l1 = length l2 -> map snd (combine l1 l2) = l2.
Proof.
  revert l2. induction l1 as [| a l1 IH]; intros [| b l2] Hlen;
    simpl in *; try discriminate; [reflexivity |].
  rewrite IH by congruence. reflexivity.
Qed.

Lemma range_length (n : nat) : length (PyList.range n) = n.
Proof. unfold PyList.range. rewrite length_map, length_seq. reflexivity. Qed.

Lemma conditions_frame_rows (cs : list condition) (df : DataFrame) :
  conditions_frame cs = Returned df ->
  columns df = ["experiment"; "contexts"; "targets"] /\
  map snd (rows df)
  = map (fun c => [Field (experiment c); Field (contexts c); Field (targets c)]) cs.
Proof.
  intros H.
  assert (Hdf : df = Frame ["experiment"; "contexts"; "targets"]
                       (combine (PyList.range (length cs))
                          (map (fun c => [Field (experiment c); Field (contexts c);
                                          Field (targets c)]) cs))).
  { destruct cs as [| c cs]; [discriminate H |].
    apply returned_inj in H. symmetry. exact H. }
  subst df. split; [reflexivity |].
  cbn [rows]. apply map_snd_combine.
  rewrite length_map. apply range_length.
Qed.

(** C8 as stated fails: with the contexts directory of the one experiment
    missing, the loops end with the empty list, and the cell then raises
    ValueError where it names the columns of the manifest. *)
Lemma C8_counterexample :
  tree_no_contexts (contexts_dir "exp2a") = None
  /\ conditions_for tree_no_contexts ["exp2a"] = []
  /\ conditions_cell tree_no_contexts ["exp2a"] = Raised ValueError
  /\ ~ (forall (fs : tree) (e : string),
          missing_or_empty fs (contexts_dir e) \/ missing_or_empty fs (targets_dir e) ->
          exists df, conditions_cell fs [e] = Returned df).
Proof.
  repeat split; try reflexivity.
  intros Hclaim.
  destruct (Hclaim tree_no_contexts "exp2a") as [df Hdf].
  - left. left. reflexivity.
  - discriminate Hdf.
Qed.

(** C8, as the code has it: an experiment whose contexts/ or targets/
    directory is missing or empty contributes no condition, and the
    conditions of the other experiments in the list are what they are
    without it; the loops raise nothing. The cell raises nothing either as
    long as some other experiment yields a condition: the manifest then holds
    the rows of the others. When no experiment yields a condition, the cell
    raises ValueError where it names the columns of the manifest. *)
Theorem C8_missing_directory_yields_nothing :
  forall (fs : tree) (before after : list string) (e : string),
    missing_or_empty fs (contexts_dir e) \/ missing_or_empty fs (targets_dir e) ->
    conditions_for fs [e] = [] /\
    conditions_for fs (before ++ e :: after)
    = conditions_for fs before ++ conditions_for fs after /\
    conditions_for fs (before ++ e :: after) = conditions_for fs (before ++ after) /\
    conditions_cell fs (before ++ e :: after) = conditions_cell fs (before ++ after) /\
    (conditions_for fs (before ++ after) <> [] ->
     exists df,
       conditions_cell fs (before ++ e :: after) = Returned df /\
       columns df = ["experiment"; "contexts"; "targets"] /\
       map snd (rows df)
       = map (fun c => [Field (experiment c); Field (contexts c); Field (targets c)])
           (conditions_for fs (before ++ after))) /\
    (conditions_for fs (before ++ after) = [] ->
     conditions_cell fs (before ++ e :: after) = Raised ValueError).
Proof.
  intros fs before after e Hnone.
  assert (Hcross : cross e (Glob.glob_wav fs (contexts_dir e))
                           (Glob.glob_wav fs (targets_dir e)) = []).
  { destruct Hnone as [Hc | Ht].
    - rewrite (glob_wav_nothing fs _ Hc). apply cross_nil_l.
    - rewrite (glob_wav_nothing fs _ Ht). apply cross_nil_r. }
  assert (Hsame : conditions_for fs (before ++ e :: after)
                  = conditions_for fs (before ++ after)).
  { rewrite !conditions_for_cross, !flat_map_app. simpl.
    rewrite Hcross. reflexivity. }
  split; [rewrite conditions_for_cross; simpl; rewrite Hcross; reflexivity |].
  split; [rewrite Hsame, !conditions_for_cross; apply flat_map_app |].
  split; [exact Hsame |].
  unfold conditions_cell. rewrite Hsame.
  split; [reflexivity |]. split.
  - intros Hsome.
    destruct (conditions_frame (conditions_for fs (before ++ after)))
      as [df | err] eqn:Hdf.
    + exists df. split; [reflexivity |]. apply conditions_frame_rows, Hdf.
    + destruct (conditions_for fs (before ++ after)); [contradiction | discriminate].
  - intros ->. reflexivity.
Qed.

Lemma C8_witness :
  conditions_for tree_no_contexts ["exp2a"] = [] /\
  conditions_for tree_no_contexts (["exp1"] ++ "exp2a" :: ["exp2b"])
  = conditions_for tree_no_contexts ["exp1"]
    ++ conditions_for tree_no_contexts ["exp2b"] /\
  conditions_for tree_no_contexts (["exp1"] ++ "exp2a" :: ["exp2b"])
  = conditions_for tree_no_contexts (["exp1"] ++ ["exp2b"]) /\
  conditions_cell tree_no_contexts (["exp1"] ++ "exp2a" :: ["exp2b"])
  = conditions_cell tree_no_contexts (["exp1"] ++ ["exp2b"]) /\
  (conditions_for tree_no_contexts (["exp1"] ++ ["exp2b"]) <> [] ->
   exists df,
     conditions_cell tree_no_contexts (["exp1"] ++ "exp2a" :: ["exp2b"]) = Returned df /\
     columns df = ["experiment"; "contexts"; "targets"] /\
     map snd (rows df)
     = map (fun c => [Field (experiment c); Field (contexts c); Field (targets c)])
         (conditions_for tree_no_contexts (["exp1"] ++ ["exp2b"]))) /\
  (conditions_for tree_no_contexts (["exp1"] ++ ["exp2b"]) = [] ->
   conditions_cell tree_no_contexts (["exp1"] ++ "exp2a" :: ["exp2b"])
   = Raised ValueError).
Proof.
  apply (C8_missing_directory_yields_nothing tree_no_contexts
           ["exp1"] ["exp2b"] "exp2a").
  left. left. reflexivity.
Defined.

(* ===================================================================== *)
(** * The response logs *)
(* ===================================================================== *)

Lemma filter_keeps_all {A : Type} (f : A -> bool) (l : list A) :
  (forall a, In a l -> f a = true) -> filter f l = l.
Proof.
  induction l as [| a l IH]; intros Hf; simpl; [reflexivity |].
  rewrite (Hf a) by (left; reflexivity).
  rewrite IH by (intros a' Ha'; apply Hf; right; exact Ha'). reflexivity.
Qed.

Lemma map_combine_snd {A B C : Type} (h : B -> C) (l1 : list A) (l2 : list B) :
  map (fun r => (fst r, h (snd r))) (combine l1 l2) = combine l1 (map h l2).
Proof.
  revert l2. induction l1 as [| a l1 IH]; intros [| b l2]; simpl;
    try reflexivity.
  rewrite IH. reflexivity.
Qed.

Lemma has_column_In (cols : list string) (c : string) :
  Pandas.has_column cols c = true <-> In c cols.
Proof.
  unfold Pandas.has_column. rewrite existsb_exists. split.
  - intros (c' & Hin & Heq). apply String.eqb_eq in Heq. subst. exact Hin.
  - intros Hin. exists c. split; [exact Hin | apply String.eqb_refl].
Qed.

(** The rows of a freshly read log that bear neither label 0 nor label 1
    are its rows from the third on. *)
Lemma drop_first_two (rs : list (list cell)) :
  (2 <= length rs)%nat ->
  filter (fun r : Z * list cell => negb (existsb (Z.eqb (fst r)) [0; 1]))
    (combine (PyList.range (length rs)) rs)
  = skipn 2 (combine (PyList.range (length rs)) rs).
Proof.
  destruct rs as [| r0 [| r1 rest]]; simpl; try lia. intros _.
  apply filter_keeps_all. intros [lbl r] Hin.
  apply in_combine_l in Hin. apply in_map_iff in Hin.
  destruct Hin as (n & <- & Hn). apply in_seq in Hn. simpl.
  destruct (Z.eqb_spec (Z.of_nat n) 0); [lia |].
  destruct (Z.eqb_spec (Z.of_nat n) 1); [lia |]. reflexivity.
Qed.

(** The loop body on a log read under the default index, of two rows or
    more. *)
Lemma trimmed_returns (read_csv : reader) (f : string) (t : table) :
  read_as read_csv f t ->
  (2 <= length (body t))%nat ->
  trimmed read_csv f
  = Returned
      (Frame (header t)
         (skipn 2 (combine (PyList.range (length (body t))) (body t)))).
Proof.
  intros [Hread _] Hlen. unfold trimmed. rewrite Hread. cbn [bind].
  unfold Pandas.index_at, Pandas.drop, Pandas.numbered.
  simpl rows. simpl columns.
  rewrite <- (drop_first_two _ Hlen).
  destruct (body t) as [| r0 [| r1 rest]]; simpl in Hlen; try lia.
  reflexivity.
Qed.

(** A log of fewer than two rows stops the cell. *)
Lemma trimmed_raises (read_csv : reader) (f : string) (t : table) :
  read_as read_csv f t ->
  (length (body t) < 2)%nat -> trimmed read_csv f = Raised IndexError.
Proof.
  intros [Hread _] Hlen. unfold trimmed. rewrite Hread. cbn [bind].
  unfold Pandas.index_at, Pandas.numbered.
  destruct (body t) as [| r0 [| r1 rest]]; simpl in Hlen; try lia;
    reflexivity.
Qed.

Lemma frames_loop (read_csv : reader) (files : list string) (logs : list table)
      (acc : list DataFrame) :
  Forall2 (read_as read_csv) files logs ->
  Forall (fun t => (2 <= length (body t))%nat) logs ->
  fold_left
    (fun acc the_file =>
       frames <- acc ;;
       current_file <- trimmed read_csv the_file ;;
       Returned (frames ++ [current_file]))
    files (Returned acc)
  = Returned
      (acc ++
       map (fun t =>
              Frame (header t)
                (skipn 2 (combine (PyList.range (length (body t))) (body t))))
         logs).
Proof.
  intros Hread. revert acc.
  induction Hread as [| f t files logs Hft _ IH]; intros acc Hall; simpl.
  - rewrite app_nil_r. reflexivity.
  - rewrite (trimmed_returns read_csv f t Hft (Forall_inv Hall)). simpl.
    rewrite (IH _ (Forall_inv_tail Hall)), <- app_assoc. reflexivity.
Qed.

Lemma union_step_keeps (frames : list DataFrame) (acc : list string) (c : string) :
  In c acc ->
  In c (fold_left
          (fun cols df =>
             cols ++ filter (fun c => negb (Pandas.has_column cols c))
                       (nodup string_dec (columns df)))
          frames acc).
Proof.
  revert acc. induction frames as [| df frames IH]; intros acc Hin; simpl;
    [exact Hin |].
  apply IH, in_or_app. left. exact Hin.
Qed.

(** Every column of every frame is a column of the concatenation. *)
Lemma union_columns_has (frames : list DataFrame) (df : DataFrame) (c : string) :
  In df frames -> In c (columns df) -> In c (Pandas.union_columns frames).
Proof.
  unfold Pandas.union_columns. generalize (@nil string) as acc.
  induction frames as [| df0 frames IH]; intros acc Hdf Hc; [contradiction |].
  simpl. destruct Hdf as [-> | Hdf]; [| apply IH; assumption].
  apply union_step_keeps, in_or_app.
  destruct (Pandas.has_column acc c) eqn:Hacc.
  - left. apply has_column_In, Hacc.
  - right. apply filter_In. split; [apply nodup_In, Hc |].
    rewrite Hacc. reflexivity.
Qed.

(** A row aligned to other columns keeps its value under each of them. *)
Lemma value_at_aligned (cols : list string) (f : string -> cell) (c : string) :
  In c cols -> Pandas.value_at cols (map f cols) c = f c.
Proof.
  unfold Pandas.value_at.
  induction cols as [| n cols IH]; intros Hin; [contradiction |].
  simpl. destruct (String.eqb_spec c n) as [-> | Hneq]; [reflexivity |].
  destruct Hin as [Heq | Hin]; [congruence |].
  specialize (IH Hin).
  destruct (Pandas.position c cols) as [i |]; simpl; exact IH.
Qed.

(** What the concatenation, the new index and the selection leave of the
    frame of one log: its rows from the third on, under the selected
    columns. *)
Lemma selected_rows (union names : list string) (t : table) :
  (forall c, In c names -> In c union) ->
  map (fun cells => map (Pandas.value_at union cells) names)
    (map snd
       (map (fun r : Z * list cell =>
               (fst r, map (Pandas.value_at (header t) (snd r)) union))
          (skipn 2 (combine (PyList.range (length (body t))) (body t)))))
  = trials names t.
Proof.
  intros Hsub. unfold trials.
  rewrite !map_map. cbn [fst snd].
  replace (skipn 2 (body t))
    with (map snd (skipn 2 (combine (PyList.range (length (body t))) (body t))))
    by (rewrite <- skipn_map, map_snd_combine by apply range_length;
        reflexivity).
  rewrite map_map.
  apply map_ext. intros [lbl r]. cbn [fst snd].
  apply map_ext_in. intros c Hc.
  apply value_at_aligned, Hsub, Hc.
Qed.

Lemma selected_all (union names : list string) (files : list table) :
  (forall c, In c names -> In c union) ->
  map (fun cells => map (Pandas.value_at union cells) names)
    (map snd
       (flat_map
          (fun df : DataFrame =>
             map (fun r => (fst r, map (Pandas.value_at (columns df) (snd r)) union))
               (rows df))
          (map (fun t =>
                  Frame (header t)
                    (skipn 2 (combine (PyList.range (length (body t))) (body t))))
             files)))
  = flat_map (trials names) files.
Proof.
  intros Hsub. induction files as [| t files IH]; [reflexivity |].
  cbn [map flat_map columns rows]. rewrite !map_app, IH. f_equal.
  apply selected_rows, Hsub.
Qed.

(** C9: the cell drops from each log its first 2 data rows, by position
    (the rows that bear the index labels 0 and 1 of a freshly read file),
    whatever they hold; it projects every remaining row to exactly the 7
    columns exp_no, context, probe, sld_rating.response, sld_rating.rt,
    participant, date; and it concatenates what remains, each log's rows in
    their order, the logs in the order given, under a fresh index. The logs
    are as the experiment writes them: one at least, each read under the
    default index with a value under every column in every row, each with
    its two practice rows, each of the 7 columns in the header of some log. *)
Theorem C9_data_keeps_rows_from_the_third :
  forall (read_csv : reader) (data_files : list string) (logs : list table),
    Forall2 (read_as read_csv) data_files logs ->
    data_files <> [] ->
    Forall (fun t => (2 <= length (body t))%nat) logs ->
    Forall (fun c => Exists (fun t => In c (header t)) logs) relevant_cols ->
    data read_csv data_files
    = Returned
        (Frame relevant_cols
           (combine
              (PyList.range (length (flat_map (trials relevant_cols) logs)))
              (flat_map (trials relevant_cols) logs)))
    /\ (forall (t : table) (practice1 practice2 : list cell) (rest : list (list cell)),
          body t = practice1 :: practice2 :: rest ->
          trials relevant_cols t
          = map (fun r => map (Pandas.value_at (header t) r) relevant_cols) rest)
    /\ Forall (fun r => length r = 7%nat) (flat_map (trials relevant_cols) logs).
Proof.
  intros read_csv data_files logs Hread Hsome Hrows Hcols.
  split; [| split].
  - unfold data. rewrite (frames_loop read_csv data_files logs [] Hread Hrows).
    cbn [app bind].
    set (frames := map _ logs).
    assert (Hsub : forall c, In c relevant_cols -> In c (Pandas.union_columns frames)).
    { intros c Hc. rewrite Forall_forall in Hcols.
      specialize (Hcols c Hc). apply Exists_exists in Hcols.
      destruct Hcols as (t & Ht & Hhdr).
      apply union_columns_has
        with (df := Frame (header t)
                      (skipn 2 (combine (PyList.range (length (body t))) (body t)))).
      - unfold frames. apply in_map_iff. exists t. split; [reflexivity | exact Ht].
      - exact Hhdr. }
    assert (Hconcat : Pandas.concat frames
                      = Returned
                          (Frame (Pandas.union_columns frames)
                             (flat_map
                                (fun df =>
                                   map (fun r =>
                                          (fst r,
                                           map (Pandas.value_at (columns df) (snd r))
                                             (Pandas.union_columns frames)))
                                     (rows df))
                                frames))).
    { unfold frames. destruct Hread as [| f t files logs' _ _]; [contradiction |].
      reflexivity. }
    rewrite Hconcat. cbn [bind].
    unfold Pandas.select, Pandas.reset_index. cbn [columns rows].
    replace (forallb (Pandas.has_column (Pandas.union_columns frames)) relevant_cols)
      with true
      by (symmetry; apply forallb_forall; intros c Hc;
          apply has_column_In, Hsub, Hc).
    rewrite (map_combine_snd
               (fun cells => map (Pandas.value_at (Pandas.union_columns frames) cells)
                               relevant_cols)).
    pose proof (selected_all (Pandas.union_columns frames) relevant_cols
                  logs Hsub) as Hsel.
    fold frames in Hsel.
    assert (Hlen : length (flat_map (trials relevant_cols) logs)
                   = length
                       (flat_map
                          (fun df =>
                             map (fun r =>
                                    (fst r,
                                     map (Pandas.value_at (columns df) (snd r))
                                       (Pandas.union_columns frames)))
                               (rows df))
                          frames)).
    { rewrite <- Hsel, !length_map. reflexivity. }
    rewrite Hsel, Hlen. reflexivity.
  - intros t p1 p2 rest Hbody. unfold trials. rewrite Hbody. reflexivity.
  - apply Forall_forall. intros r Hr.
    apply in_flat_map in Hr. destruct Hr as (t & _ & Hr).
    unfold trials in Hr. apply in_map_iff in Hr.
    destruct Hr as (r0 & <- & _). rewrite length_map. reflexivity.
Qed.

(** The spec's scenario: a log with rows practice1, practice2, trial1, trial2,
    trial3 gives exactly the three trials, each under the 7 columns. *)
Lemma C9_witness :
  data sample_reader ["data/p01.csv"]
  = Returned
      (Frame relevant_cols
         [(0, [Field "1a"; Field "asc_maj"; Field "00"; Field "7"; Field "1.1";
               Field "p01"; Field "2015_Mar_02"]);
          (1, [Field "1a"; Field "asc_maj"; Field "01"; Field "2"; Field "1.6";
               Field "p01"; Field "2015_Mar_02"]);
          (2, [Field "1a"; Field "asc_maj"; Field "02"; Field "4"; Field "1.3";
               Field "p01"; Field "2015_Mar_02"])]).
Proof.
  refine (proj1 (C9_data_keeps_rows_from_the_third sample_reader
                   ["data/p01.csv"] [sample_log] _ _ _ _)).
  - constructor; [| constructor]. split; [reflexivity | repeat constructor].
  - discriminate.
  - repeat constructor.
  - repeat (apply Forall_cons; [apply Exists_cons_hd; simpl; tauto |]).
    apply Forall_nil.
Defined.

(* ===================================================================== *)
(** * More on rotation *)
(* ===================================================================== *)

Section RotateAlgebra.
Context {A : Type}.
Implicit Types (l : list A) (k : Z).

Lemma clamp_le (len : nat) k : (PyList.clamp len k <= len)%nat.
Proof. unfold PyList.clamp. destruct (Z.ltb_spec k 0); lia. Qed.

(** The position opposite to [k] cuts the list where [k] leaves off. *)
Lemma clamp_opp (len : nat) k :
  k <> 0 -> PyList.clamp len (- k) = (len - PyList.clamp len k)%nat.
Proof.
  intros Hk. unfold PyList.clamp.
  destruct (Z.ltb_spec k 0), (Z.ltb_spec (- k) 0); lia.
Qed.

Lemma skipn_length_app l l' : skipn (length l) (l ++ l') = l'.
Proof. induction l as [| a l IH]; [reflexivity | exact IH]. Qed.

Lemma firstn_length_app l l' : firstn (length l) (l ++ l') = l.
Proof. induction l as [| a l IH]; [reflexivity | simpl; rewrite IH; reflexivity]. Qed.

Lemma swap_back l (c : nat) :
  (c <= length l)%nat ->
  skipn (length l - c) (skipn c l ++ firstn c l)
  ++ firstn (length l - c) (skipn c l ++ firstn c l) = l.
Proof.
  intros Hc. rewrite <- (length_skipn c l).
  rewrite skipn_length_app, firstn_length_app. apply firstn_skipn.
Qed.

(** Whatever the integer position, [rotate] returns the entries of the list,
    each as often as before, in some order. *)
Theorem rotate_permutation l k :
  exists r, rotate l (PyInt k) = Returned r /\ Permutation r l /\ length r = length l.
Proof.
  eexists. split; [apply rotate_int |].
  assert (Hperm : Permutation
                    (skipn (PyList.clamp (length l) k) l
                     ++ firstn (PyList.clamp (length l) k) l) l).
  { rewrite Permutation_app_comm, firstn_skipn. reflexivity. }
  split; [exact Hperm | apply Permutation_length, Hperm].
Qed.

(** Rotating to position [k] and then to position [-k] gives the list back,
    for every integer [k]. *)
Theorem rotate_back l k :
  (r <- rotate l (PyInt k) ;; rotate r (PyInt (- k))) = Returned l.
Proof.
  rewrite rotate_int. cbn [bind]. rewrite rotate_int.
  rewrite length_app, length_skipn, length_firstn.
  pose proof (clamp_le (length l) k) as Hle.
  replace (length l - PyList.clamp (length l) k
           + Nat.min (PyList.clamp (length l) k) (length l))%nat
    with (length l) by lia.
  destruct (Z.eq_dec k 0) as [-> | Hk].
  - change (- 0) with 0. rewrite clamp_in_range by lia.
    simpl. rewrite !app_nil_r. reflexivity.
  - rewrite (clamp_opp _ _ Hk). f_equal. apply swap_back, Hle.
Qed.

(** A negative position counts from the end: within one length of the list,
    position [k] is position [len + k]. *)
Theorem rotate_negative l k :
  - Z.of_nat (length l) <= k < 0 ->
  rotate l (PyInt k) = rotate l (PyInt (Z.of_nat (length l) + k)).
Proof.
  intros Hk. rewrite !rotate_int.
  rewrite (clamp_negative _ _ Hk), clamp_in_range by lia. reflexivity.
Qed.

Lemma nth_error_rot l (n i : nat) :
  (n <= length l)%nat ->
  nth_error (skipn n l ++ firstn n l) i
  = if (i <? length l)%nat then nth_error l ((i + n) mod length l) else None.
Proof.
  intros Hn. destruct (Nat.ltb_spec i (length l)) as [Hi | Hi].
  - apply nth_error_skipn_firstn; assumption.
  - apply nth_error_None.
    rewrite length_app, length_skipn, length_firstn. lia.
Qed.

(** Two rotations in a row are one: positions add up modulo the length. *)
Theorem rotate_rotate l (j k : Z) :
  0 <= j <= Z.of_nat (length l) -> 0 <= k <= Z.of_nat (length l) ->
  (r <- rotate l (PyInt j) ;; rotate r (PyInt k))
  = rotate l (PyInt ((j + k) mod Z.of_nat (length l))).
Proof.
  intros Hj Hk.
  destruct (Nat.eq_dec (length l) 0) as [Hnil | Hsome].
  { apply length_zero_iff_nil in Hnil. subst l. simpl in Hj, Hk.
    replace j with 0 by lia. replace k with 0 by lia. reflexivity. }
  assert (Hpos : (0 < length l)%nat) by lia.
  pose proof (Z.mod_pos_bound (j + k) (Z.of_nat (length l)) ltac:(lia)) as Hm.
  rewrite rotate_int. cbn [bind]. rewrite !rotate_int.
  rewrite length_app, length_skipn, length_firstn.
  rewrite !clamp_in_range by lia.
  f_equal. apply nth_error_ext. intros i.
  rewrite nth_error_rot
    by (rewrite length_app, length_skipn, length_firstn; lia).
  rewrite length_app, length_skipn, length_firstn.
  replace (length l - Z.to_nat j + Nat.min (Z.to_nat j) (length l))%nat
    with (length l) by lia.
  rewrite (nth_error_rot l (Z.to_nat ((j + k) mod Z.of_nat (length l)))) by lia.
  destruct (Nat.ltb_spec i (length l)) as [Hi | Hi]; [| reflexivity].
  rewrite nth_error_skipn_firstn
    by (try apply Nat.mod_upper_bound; lia).
  f_equal.
  replace (Z.to_nat ((j + k) mod Z.of_nat (length l)))
    with ((Z.to_nat j + Z.to_nat k) mod length l)%nat.
  - rewrite Nat.Div0.add_mod_idemp_l, Nat.Div0.add_mod_idemp_r.
    f_equal. lia.
  - apply Nat2Z.inj. rewrite Nat2Z.inj_mod, Nat2Z.inj_add, !Z2Nat.id by lia.
    reflexivity.
Qed.

End RotateAlgebra.

(* ===================================================================== *)
(** * More on the profiles and their correlations *)
(* ===================================================================== *)

(** The 24 keys have 24 different profiles: within tonics 0 to 11 and the two
    modes, the profile tells the key. *)
Theorem profile_injective (t1 t2 : Z) (m1 m2 : string) :
  0 <= t1 <= 11 -> 0 <= t2 <= 11 -> In m1 modes -> In m2 modes ->
  profile (PyInt t1) m1 = profile (PyInt t2) m2 ->
  t1 = t2 /\ m1 = m2.
Proof.
  intros Ht1 Ht2 Hm1 Hm2.
  assert (H1 : exists n : nat, (n < 12)%nat /\ t1 = Z.of_nat n)
    by (exists (Z.to_nat t1); lia).
  assert (H2 : exists n : nat, (n < 12)%nat /\ t2 = Z.of_nat n)
    by (exists (Z.to_nat t2); lia).
  destruct H1 as (n1 & Hn1 & ->). destruct H2 as (n2 & Hn2 & ->).
  simpl in Hm1, Hm2.
  destruct Hm1 as [<- | [<- | []]]; destruct Hm2 as [<- | [<- | []]];
    do 12 (destruct n1 as [| n1];
           [do 12 (destruct n2 as [| n2];
                   [intros H;
                    first [split; reflexivity
                          | exfalso; apply returned_inj in H; revert H;
                            apply same_floats_differ; vm_compute; reflexivity]
                   |]); lia |]);
    lia.
Qed.

Lemma profile_injective_witness : 3 = 3 /\ "minor" = "minor".
Proof.
  apply (profile_injective 3 3 "minor" "minor"); try lia;
    try (simpl; tauto); reflexivity.
Defined.

(** Row [i], column [j] of [key_distances] is the correlation of the [j]-th
    key with the [i]-th: the rows follow the outer variable, [key2]. *)
Theorem key_distances_entry :
  exists ks M,
    key_ratings = Returned ks /\ key_distances = Returned M /\
    forall (i j : nat) (key2 key1 : list float),
      nth_error ks i = Some key2 -> nth_error ks j = Some key1 ->
      exists r, Stats.pearsonr key1 key2 = Returned r /\ entry M i j = Some r.
Proof.
  destruct key_distances_returns as (M & HM & _).
  destruct key_ratings as [ks | e] eqn:Hks; [| vm_compute in Hks; discriminate].
  exists ks, M. split; [reflexivity |]. split; [exact HM |].
  unfold key_distances in HM. rewrite Hks in HM. cbn [bind] in HM.
  apply comprehension_nth in HM. destruct HM as [_ Hrows].
  intros i j key2 key1 Hi Hj.
  destruct (Hrows i key2 Hi) as (row & Hrow & Hnth).
  apply comprehension_nth in Hrow. destruct Hrow as [_ Hcells].
  destruct (Hcells j key1 Hj) as (r & Hr & Hcell).
  exists r. split; [exact Hr |].
  unfold entry. rewrite Hnth. exact Hcell.
Qed.

Lemma key_distances_entry_witness :
  exists ks M key2 key1 r,
    key_ratings = Returned ks /\ key_distances = Returned M /\
    nth_error ks 5 = Some key2 /\ nth_error ks 0 = Some key1 /\
    Stats.pearsonr key1 key2 = Returned r /\ entry M 5 0 = Some r.
Proof.
  destruct key_distances_entry as (ks & M & Hks & HM & Hentry).
  destruct (nth_error ks 5) as [key2 |] eqn:H5;
    [| vm_compute in Hks; injection Hks as <-; discriminate H5].
  destruct (nth_error ks 0) as [key1 |] eqn:H0;
    [| vm_compute in Hks; injection Hks as <-; discriminate H0].
  destruct (Hentry 5%nat 0%nat key2 key1 H5 H0) as (r & Hr & He).
  exists ks, M, key2, key1, r. repeat split; assumption.
Defined.

(* ===================================================================== *)
(** * More on the conditions manifest *)
(* ===================================================================== *)

Lemma prefix_append (d s : string) : String.prefix d (d ++ s) = true.
Proof.
  induction d as [| a d IH]; simpl; [destruct s; reflexivity |].
  destruct (ascii_dec a a) as [_ | Hneq]; [exact IH | contradiction].
Qed.

Lemma length_append (d s : string) :
  String.length (d ++ s) = (String.length d + String.length s)%nat.
Proof. induction d as [| a d IH]; simpl; [reflexivity | rewrite IH; reflexivity]. Qed.

Lemma substring_append (d s : string) (k m : nat) :
  String.substring (String.length d + k) m (d ++ s) = String.substring k m s.
Proof. induction d as [| a d IH]; simpl; [reflexivity | exact IH]. Qed.

(** A name that ends in a suffix still does behind a directory. *)
Lemma ends_with_append (suffix d s : string) :
  Glob.ends_with suffix s = true -> Glob.ends_with suffix (d ++ s) = true.
Proof.
  unfold Glob.ends_with. intros H. apply andb_prop in H as [Hlen Hsub].
  apply Nat.leb_le in Hlen. rewrite length_append.
  apply andb_true_intro. split; [apply Nat.leb_le; lia |].
  replace (String.length d + String.length s - String.length suffix)%nat
    with (String.length d + (String.length s - String.length suffix))%nat by lia.
  rewrite substring_append. exact Hsub.
Qed.

Lemma append_inj (d s s' : string) : (d ++ s = d ++ s')%string -> s = s'.
Proof.
  induction d as [| a d IH]; simpl; intros H; [exact H |].
  injection H as H. apply IH, H.
Qed.

Lemma NoDup_list_prod {A B : Type} (l : list A) (l' : list B) :
  NoDup l -> NoDup l' -> NoDup (list_prod l l').
Proof.
  intros Hl Hl'. induction Hl as [| a l Ha _ IH]; simpl; [constructor |].
  apply NoDup_app.
  - apply NoDup_map_NoDup_ForallPairs; [| exact Hl'].
    intros x y _ _ H. injection H as ->. reflexivity.
  - exact IH.
  - intros [x y] Hin Hin'. apply in_map_iff in Hin.
    destruct Hin as (y' & Heq & _). injection Heq as <- <-.
    apply in_prod_iff in Hin'. apply Ha, Hin'.
Qed.

Section Manifest.
Variable fs : tree.

(** What [glob] returns for a directory: the listed names that are not hidden
    and end in .wav, each behind the directory. *)
Lemma glob_wav_In (dir path : string) :
  In path (Glob.glob_wav fs dir) <->
  exists names name,
    fs dir = Some names /\ In name names /\ path = (dir ++ name)%string /\
    Glob.starts_with "." name = false /\ Glob.ends_with ".wav" name = true.
Proof.
  unfold Glob.glob_wav. split.
  - destruct (fs dir) as [names |]; [| contradiction].
    intros Hin. apply in_map_iff in Hin. destruct Hin as (name & <- & Hin).
    apply filter_In in Hin. destruct Hin as [Hin Hkeep].
    apply andb_prop in Hkeep as [Hhid Hwav]. apply negb_true_iff in Hhid.
    exists names, name. repeat split; assumption.
  - intros (names & name & -> & Hin & -> & Hhid & Hwav).
    apply in_map, filter_In. split; [exact Hin |].
    rewrite Hhid, Hwav. reflexivity.
Qed.

Lemma glob_wav_NoDup (dir : string) :
  listed_once fs dir -> NoDup (Glob.glob_wav fs dir).
Proof.
  unfold Glob.glob_wav, listed_once. intros Honce.
  destruct (fs dir) as [names |]; [| constructor].
  apply NoDup_map_NoDup_ForallPairs.
  - intros x y _ _. apply append_inj.
  - apply NoDup_filter, Honce. reflexivity.
Qed.

Lemma cross_In (e : string) (cs ts : list string) (c : condition) :
  In c (cross e cs ts) <->
  experiment c = e /\ In (contexts c) cs /\ In (targets c) ts.
Proof.
  unfold cross. rewrite in_map_iff. split.
  - intros ([x y] & <- & Hin). apply in_prod_iff in Hin. simpl. tauto.
  - intros (He & Hc & Ht). exists (contexts c, targets c). split.
    + destruct c as [e' x y]. simpl in *. subst. reflexivity.
    + apply in_prod_iff. tauto.
Qed.

(** The manifest has, for each experiment, as many rows as it has contexts
    times targets. *)
Theorem conditions_count (exps : list string) :
  length (conditions_for fs exps)
  = list_sum
      (map (fun e => (length (Glob.glob_wav fs (contexts_dir e))
                      * length (Glob.glob_wav fs (targets_dir e)))%nat)
         exps).
Proof.
  rewrite conditions_for_cross, length_flat_map. f_equal.
  apply map_ext. intros e. apply cross_length.
Qed.

(** The manifest of a list of experiments is the manifest of its first part
    followed by the manifest of the rest: an experiment's rows depend on no
    other experiment. *)
Theorem conditions_app (exps exps' : list string) :
  conditions_for fs (exps ++ exps')
  = conditions_for fs exps ++ conditions_for fs exps'.
Proof. rewrite !conditions_for_cross. apply flat_map_app. Qed.

Lemma in_conditions (exps : list string) (c : condition) :
  In c (conditions_for fs exps) <->
  In (experiment c) exps /\
  In (contexts c) (Glob.glob_wav fs (contexts_dir (experiment c))) /\
  In (targets c) (Glob.glob_wav fs (targets_dir (experiment c))).
Proof.
  rewrite conditions_for_cross, in_flat_map. split.
  - intros (e & He & Hc). apply cross_In in Hc.
    destruct Hc as (<- & Hcs & Hts). repeat split; assumption.
  - intros (He & Hcs & Hts). exists (experiment c). split; [exact He |].
    apply cross_In. repeat split; assumption.
Qed.

(** A row is in the manifest exactly when its experiment is one of the list,
    its context one of that experiment's contexts and its target one of that
    experiment's targets: no pair is left out and none is made up. *)
Theorem conditions_member (exps : list string) (c : condition) :
  In c (conditions_for fs exps) <->
  In (experiment c) exps /\
  In (contexts c) (Glob.glob_wav fs (contexts_dir (experiment c))) /\
  In (targets c) (Glob.glob_wav fs (targets_dir (experiment c))).
Proof. exact (in_conditions exps c). Qed.

(** Every path of the manifest names a listed file: it lies in the contexts
    (or targets) directory of its experiment and ends in .wav, and its name
    is not hidden. *)
Theorem conditions_paths (exps : list string) (c : condition) :
  In c (conditions_for fs exps) ->
  (exists names name,
      fs (contexts_dir (experiment c)) = Some names /\ In name names /\
      contexts c = (contexts_dir (experiment c) ++ name)%string /\
      Glob.starts_with "." name = false)
  /\ (exists names name,
        fs (targets_dir (experiment c)) = Some names /\ In name names /\
        targets c = (targets_dir (experiment c) ++ name)%string /\
        Glob.starts_with "." name = false)
  /\ String.prefix (contexts_dir (experiment c)) (contexts c) = true
  /\ String.prefix (targets_dir (experiment c)) (targets c) = true
  /\ Glob.ends_with ".wav" (contexts c) = true
  /\ Glob.ends_with ".wav" (targets c) = true.
Proof.
  intros Hin. apply in_conditions in Hin. destruct Hin as (_ & Hcs & Hts).
  apply glob_wav_In in Hcs. destruct Hcs as (ns & n & Hns & Hn & Hc & Hhid & Hwav).
  apply glob_wav_In in Hts. destruct Hts as (ns' & n' & Hns' & Hn' & Ht & Hhid' & Hwav').
  split; [exists ns, n; repeat split; assumption |].
  split; [exists ns', n'; repeat split; assumption |].
  rewrite Hc, Ht.
  repeat split;
    first [apply prefix_append | apply ends_with_append; assumption].
Qed.

(** Where no experiment is listed twice and no directory lists a name twice,
    no row of the manifest comes twice. *)
Theorem conditions_NoDup (exps : list string) :
  NoDup exps ->
  (forall e, In e exps ->
             listed_once fs (contexts_dir e) /\ listed_once fs (targets_dir e)) ->
  NoDup (conditions_for fs exps).
Proof.
  rewrite conditions_for_cross. intros Hexps Honce.
  induction Hexps as [| e exps He _ IH]; simpl; [constructor |].
  apply NoDup_app.
  - unfold cross. apply NoDup_map_NoDup_ForallPairs.
    + intros [x y] [x' y'] _ _ H. injection H as -> ->. reflexivity.
    + destruct (Honce e (or_introl eq_refl)) as [Hc Ht].
      apply NoDup_list_prod; apply glob_wav_NoDup; assumption.
  - apply IH. intros e' He'. apply Honce. right. exact He'.
  - intros c Hc Hc'. apply cross_In in Hc. destruct Hc as (<- & _).
    apply in_flat_map in Hc'. destruct Hc' as (e' & He' & Hc').
    apply cross_In in Hc'. destruct Hc' as (<- & _). exact (He He').
Qed.

End Manifest.

Lemma conditions_paths_witness :
  String.prefix "sounds/exp2b/contexts/" "sounds/exp2b/contexts/c.wav" = true
  /\ Glob.ends_with ".wav" "sounds/exp2b/targets/z.wav" = true.
Proof.
  pose proof (conditions_paths tree_no_contexts experiments
                (Condition "exp2b" "sounds/exp2b/contexts/c.wav"
                   "sounds/exp2b/targets/z.wav")) as H.
  simpl experiment in H. simpl contexts in H. simpl targets in H.
  destruct H as (_ & _ & Hp & _ & _ & Hw).
  - vm_compute. do 4 right. left. reflexivity.
  - split; [exact Hp | exact Hw].
Defined.

Lemma conditions_NoDup_witness : NoDup (conditions_for tree_no_contexts experiments).
Proof.
  apply conditions_NoDup.
  - unfold experiments. repeat constructor; simpl; intuition discriminate.
  - intros e He. unfold listed_once.
    simpl in He. destruct He as [<- | [<- | [<- | []]]];
      split; intros names Hnames; vm_compute in Hnames;
      try discriminate Hnames; injection Hnames as <-;
      repeat constructor; simpl; intuition discriminate.
Defined.

(* ===================================================================== *)
(** * More on the response logs: when the cell fails, and how *)
(* ===================================================================== *)

Section Failures.
Variable read_csv : reader.

Lemma frames_loop_raised (files : list string) (e : exn) :
  fold_left
    (fun acc the_file =>
       frames <- acc ;;
       current_file <- trimmed read_csv the_file ;;
       Returned (frames ++ [current_file]))
    files (Raised e)
  = Raised e.
Proof. induction files as [| f files IH]; [reflexivity | exact IH]. Qed.

Lemma frames_loop_short (files : list string) (logs : list table)
      (acc : list DataFrame) :
  Forall2 (read_as read_csv) files logs ->
  Exists short logs ->
  fold_left
    (fun acc the_file =>
       frames <- acc ;;
       current_file <- trimmed read_csv the_file ;;
       Returned (frames ++ [current_file]))
    files (Returned acc)
  = Raised IndexError.
Proof.
  intros Hread. revert acc.
  induction Hread as [| f t files logs Hft _ IH]; intros acc Hshort;
    [inversion Hshort |].
  simpl. destruct (lt_dec (length (body t)) 2) as [Hlt | Hge].
  - rewrite (trimmed_raises read_csv f t Hft Hlt). apply frames_loop_raised.
  - rewrite (trimmed_returns read_csv f t Hft) by lia. simpl. apply IH.
    inversion Hshort as [? ? Hhd | ? ? Htl]; [contradiction | exact Htl].
Qed.

(** The loop stops at the first log the parser refuses, with the parser's
    exception. *)
Lemma frames_loop_unread (before : list string) (logs : list table)
      (f : string) (after : list string) (e : exn) (acc : list DataFrame) :
  Forall2 (read_as read_csv) before logs ->
  Forall (fun t => (2 <= length (body t))%nat) logs ->
  read_csv f = Raised e ->
  fold_left
    (fun acc the_file =>
       frames <- acc ;;
       current_file <- trimmed read_csv the_file ;;
       Returned (frames ++ [current_file]))
    (before ++ f :: after) (Returned acc)
  = Raised e.
Proof.
  intros Hread Hrows Hf.
  assert (Ht : trimmed read_csv f = Raised e)
    by (unfold trimmed; rewrite Hf; reflexivity).
  rewrite fold_left_app.
  rewrite (frames_loop read_csv before logs acc Hread Hrows).
  cbn [fold_left bind]. rewrite Ht. cbn [bind]. apply frames_loop_raised.
Qed.

Lemma union_step_from (frames : list DataFrame) (acc : list string) (c : string) :
  In c (fold_left
          (fun cols df =>
             cols ++ filter (fun c => negb (Pandas.has_column cols c))
                       (nodup string_dec (columns df)))
          frames acc) ->
  In c acc \/ exists df, In df frames /\ In c (columns df).
Proof.
  revert acc. induction frames as [| df frames IH]; intros acc Hin; simpl in Hin;
    [left; exact Hin |].
  destruct (IH _ Hin) as [Hacc | (df' & Hdf' & Hc)].
  - apply in_app_or in Hacc. destruct Hacc as [Hacc | Hnew]; [left; exact Hacc |].
    right. exists df. split; [left; reflexivity |].
    apply filter_In in Hnew. destruct Hnew as [Hnew _].
    apply nodup_In in Hnew. exact Hnew.
  - right. exists df'. split; [right; exact Hdf' | exact Hc].
Qed.

(** The columns of a concatenation are the columns of its frames, and no
    other. *)
Lemma union_columns_In (frames : list DataFrame) (c : string) :
  In c (Pandas.union_columns frames) <->
  exists df, In df frames /\ In c (columns df).
Proof.
  split.
  - intros Hin. apply union_step_from in Hin.
    destruct Hin as [[] | Hdf]. exact Hdf.
  - intros (df & Hdf & Hc). apply (union_columns_has frames df c Hdf Hc).
Qed.

Lemma covered_union (logs : list table) (c : string) :
  In c (Pandas.union_columns
          (map (fun t =>
                  Frame (header t)
                    (skipn 2 (combine (PyList.range (length (body t))) (body t))))
             logs))
  <-> covered logs c.
Proof.
  unfold covered. rewrite union_columns_In, Exists_exists. split.
  - intros (df & Hdf & Hc). apply in_map_iff in Hdf.
    destruct Hdf as (t & <- & Ht). exists t. split; assumption.
  - intros (t & Ht & Hc). eexists. split; [apply in_map, Ht | exact Hc].
Qed.

(** The cell on logs that all have their two rows: the selection from the
    re-indexed concatenation. *)
Lemma data_unfold (files : list string) (logs : list table) :
  Forall2 (read_as read_csv) files logs ->
  logs <> [] ->
  Forall (fun t => (2 <= length (body t))%nat) logs ->
  data read_csv files
  = Pandas.select
      (Pandas.reset_index
         (Frame
            (Pandas.union_columns
               (map (fun t =>
                       Frame (header t)
                         (skipn 2 (combine (PyList.range (length (body t))) (body t))))
                  logs))
            (flat_map
               (fun df =>
                  map (fun r =>
                         (fst r,
                          map (Pandas.value_at (columns df) (snd r))
                            (Pandas.union_columns
                               (map (fun t =>
                                       Frame (header t)
                                         (skipn 2
                                            (combine (PyList.range (length (body t)))
                                               (body t))))
                                  logs))))
                    (rows df))
               (map (fun t =>
                       Frame (header t)
                         (skipn 2 (combine (PyList.range (length (body t))) (body t))))
                  logs))))
      relevant_cols.
Proof.
  intros Hread Hsome Hrows. unfold data.
  rewrite (frames_loop read_csv files logs [] Hread Hrows). cbn [app bind].
  destruct logs as [| t logs]; [contradiction | reflexivity].
Qed.

Lemma select_outcome (df : DataFrame) (names : list string) :
  (Forall (fun c => In c (columns df)) names /\
   exists selected, Pandas.select df names = Returned selected /\
                    columns selected = names /\
                    length (rows selected) = length (rows df))
  \/ (Exists (fun c => ~ In c (columns df)) names /\
      Pandas.select df names = Raised KeyError).
Proof.
  unfold Pandas.select.
  destruct (forallb (Pandas.has_column (columns df)) names) eqn:Hall.
  - left. rewrite forallb_forall in Hall. split.
    + apply Forall_forall. intros c Hc. apply has_column_In, Hall, Hc.
    + eexists. split; [reflexivity |]. split; [reflexivity |]. apply length_map.
  - right. split; [| reflexivity].
    apply Exists_exists.
    destruct (Forall_Exists_dec (fun c => In c (columns df))
                (fun c => in_dec string_dec c (columns df)) names)
      as [Hforall | Hex].
    + exfalso. rewrite Forall_forall in Hforall.
      assert (Htrue : forallb (Pandas.has_column (columns df)) names = true)
        by (apply forallb_forall; intros c Hc; apply has_column_In, Hforall, Hc).
      congruence.
    + apply Exists_exists in Hex. exact Hex.
Qed.

(** How the cell ends on logs read under the default index, case by case. *)
Lemma data_cases (files : list string) (logs : list table) :
  Forall2 (read_as read_csv) files logs ->
  (Exists short logs /\ data read_csv files = Raised IndexError)
  \/ (logs = [] /\ data read_csv files = Raised ValueError)
  \/ (~ Exists short logs /\ logs <> [] /\
      Exists (fun c => ~ covered logs c) relevant_cols /\
      data read_csv files = Raised KeyError)
  \/ (~ Exists short logs /\ logs <> [] /\
      Forall (covered logs) relevant_cols /\
      exists df, data read_csv files = Returned df /\ columns df = relevant_cols).
Proof.
  intros Hread.
  destruct (Exists_dec short logs
              (fun t => lt_dec (length (body t)) 2)) as [Hshort | Hlong].
  { left. split; [exact Hshort |]. unfold data.
    rewrite (frames_loop_short files logs [] Hread Hshort). reflexivity. }
  right. destruct (list_eq_dec string_dec files []) as [Hnil | Hsome'].
  { left. subst files. inversion Hread. split; reflexivity. }
  right.
  assert (Hsome : logs <> []).
  { intros ->. apply Hsome'. inversion Hread. reflexivity. }
  assert (Hrows : Forall (fun t => (2 <= length (body t))%nat) logs).
  { apply Forall_Exists_neg in Hlong. revert Hlong. apply Forall_impl.
    unfold short. intros t Ht. lia. }
  rewrite (data_unfold files logs Hread Hsome Hrows).
  match goal with
  | |- context [Pandas.select ?df relevant_cols] =>
      destruct (select_outcome df relevant_cols)
        as [(Hall & sel & Hsel & Hcols & _) | (Hex & Hsel)]
  end.
  - right. repeat split; try assumption.
    + revert Hall. apply Forall_impl. intros c Hc. apply covered_union, Hc.
    + exists sel. split; assumption.
  - left. repeat split; try assumption.
    revert Hex. apply Exists_impl. intros c Hc Hcov.
    apply Hc, covered_union, Hcov.
Qed.

(** For logs read under the default index, the cell returns a frame exactly
    when there is at least one log, every log has two data rows or more, and
    each of the 7 relevant columns is in the header of some log. *)
Theorem data_returns_iff (files : list string) (logs : list table) :
  Forall2 (read_as read_csv) files logs ->
  ((exists df, data read_csv files = Returned df) <->
   logs <> [] /\
   Forall (fun t => (2 <= length (body t))%nat) logs /\
   Forall (covered logs) relevant_cols).
Proof.
  intros Hread.
  destruct (data_cases files logs Hread)
    as [(Hshort & Hd) | [(Hnil & Hd) | [(Hlong & Hsome & Hex & Hd)
                                       | (Hlong & Hsome & Hall & df & Hd & _)]]].
  - split; [intros (df & Hdf); congruence |].
    intros (_ & Hrows & _). exfalso.
    apply Exists_exists in Hshort. destruct Hshort as (t & Ht & Hlt).
    rewrite Forall_forall in Hrows. specialize (Hrows t Ht).
    unfold short in Hlt. lia.
  - split; [intros (df & Hdf); congruence |].
    intros (Hsome & _). contradiction.
  - split; [intros (df & Hdf); congruence |].
    intros (_ & _ & Hall). exfalso.
    apply Exists_exists in Hex. destruct Hex as (c & Hc & Hno).
    rewrite Forall_forall in Hall. exact (Hno (Hall c Hc)).
  - split; [| intros _; exists df; exact Hd].
    intros _. split; [exact Hsome |]. split; [| exact Hall].
    apply Forall_Exists_neg in Hlong. revert Hlong. apply Forall_impl.
    unfold short. intros t Ht. lia.
Qed.

(** For logs read under the default index, the cell raises IndexError exactly
    when some log has fewer than two data rows: the rows to drop are taken by
    position before anything else. *)
Theorem data_index_error_iff (files : list string) (logs : list table) :
  Forall2 (read_as read_csv) files logs ->
  (data read_csv files = Raised IndexError <-> Exists short logs).
Proof.
  intros Hread.
  destruct (data_cases files logs Hread)
    as [(Hshort & Hd) | [(Hnil & Hd) | [(Hlong & Hsome & Hex & Hd)
                                       | (Hlong & Hsome & Hall & df & Hd & _)]]];
    rewrite Hd; split; intros H;
    first [exact Hshort | reflexivity | discriminate H | contradiction
          | subst logs; inversion H].
Qed.

(** For logs read under the default index, the cell raises ValueError exactly
    when there is no log at all: there is nothing to concatenate. *)
Theorem data_value_error_iff (files : list string) (logs : list table) :
  Forall2 (read_as read_csv) files logs ->
  (data read_csv files = Raised ValueError <-> files = []).
Proof.
  intros Hread.
  assert (Hboth : files = [] <-> logs = []).
  { split; intros ->; inversion Hread; reflexivity. }
  rewrite Hboth.
  destruct (data_cases files logs Hread)
    as [(Hshort & Hd) | [(Hnil & Hd) | [(Hlong & Hsome & Hex & Hd)
                                       | (Hlong & Hsome & Hall & df & Hd & _)]]];
    rewrite Hd; split; intros H;
    first [exact Hnil | reflexivity | discriminate H | contradiction
          | subst logs; inversion Hshort].
Qed.

(** For logs read under the default index, the cell raises KeyError exactly
    when the logs are there, each with its two rows, and one of the 7
    relevant columns is in no header. A column that only some logs lack
    raises nothing. *)
Theorem data_key_error_iff (files : list string) (logs : list table) :
  Forall2 (read_as read_csv) files logs ->
  (data read_csv files = Raised KeyError <->
   logs <> [] /\ ~ Exists short logs /\
   Exists (fun c => ~ covered logs c) relevant_cols).
Proof.
  intros Hread.
  destruct (data_cases files logs Hread)
    as [(Hshort & Hd) | [(Hnil & Hd) | [(Hlong & Hsome & Hex & Hd)
                                       | (Hlong & Hsome & Hall & df & Hd & _)]]];
    rewrite Hd; split; intros H.
  - discriminate H.
  - destruct H as (_ & Hno & _). contradiction.
  - discriminate H.
  - destruct H as (Hsome & _). contradiction.
  - repeat split; assumption.
  - reflexivity.
  - discriminate H.
  - exfalso. destruct H as (_ & _ & Hex).
    apply Exists_exists in Hex. destruct Hex as (c & Hc & Hno).
    rewrite Forall_forall in Hall. exact (Hno (Hall c Hc)).
Qed.

(** A log the parser refuses stops the cell with the parser's own exception,
    whatever comes after it, when the logs before it are read under the
    default index with two data rows or more each. *)
Theorem data_unread (before : list string) (logs : list table)
        (f : string) (after : list string) (e : exn) :
  Forall2 (read_as read_csv) before logs ->
  Forall (fun t => (2 <= length (body t))%nat) logs ->
  read_csv f = Raised e ->
  data read_csv (before ++ f :: after) = Raised e.
Proof.
  intros Hread Hrows Hf. unfold data.
  rewrite (frames_loop_unread before logs f after e [] Hread Hrows Hf).
  reflexivity.
Qed.

(* ===================================================================== *)
(** * The trials of experiment 1a *)
(* ===================================================================== *)

(** The frame the cell returns on logs as the experiment writes them. *)
Lemma data_frame (files : list string) (logs : list table) :
  Forall2 (read_as read_csv) files logs ->
  logs <> [] ->
  Forall (fun t => (2 <= length (body t))%nat) logs ->
  Forall (covered logs) relevant_cols ->
  data read_csv files
  = Returned
      (Frame relevant_cols
         (combine (PyList.range (length (flat_map (trials relevant_cols) logs)))
            (flat_map (trials relevant_cols) logs))).
Proof.
  intros Hread Hsome Hrows Hcols.
  rewrite (data_unfold files logs Hread Hsome Hrows).
  set (frames := map _ logs).
  assert (Hsub : forall c, In c relevant_cols -> In c (Pandas.union_columns frames)).
  { intros c Hc. apply covered_union.
    rewrite Forall_forall in Hcols. apply Hcols, Hc. }
  unfold Pandas.select, Pandas.reset_index. cbn [columns rows].
  replace (forallb (Pandas.has_column (Pandas.union_columns frames)) relevant_cols)
    with true
    by (symmetry; apply forallb_forall; intros c Hc; apply has_column_In, Hsub, Hc).
  rewrite (map_combine_snd
             (fun cells => map (Pandas.value_at (Pandas.union_columns frames) cells)
                             relevant_cols)).
  pose proof (selected_all (Pandas.union_columns frames) relevant_cols logs Hsub)
    as Hsel.
  fold frames in Hsel.
  match goal with
  | |- context [PyList.range (length ?R)] =>
      replace (length R) with (length (flat_map (trials relevant_cols) logs))
        by (rewrite <- Hsel, !length_map; reflexivity)
  end.
  rewrite Hsel. reflexivity.
Qed.

End Failures.

Lemma exp1a_loop (ls acc : list cell) :
  fold_left (fun exp1a line => if is_1a line then exp1a ++ [line] else exp1a) ls acc
  = acc ++ filter is_1a ls.
Proof.
  revert acc. induction ls as [| line ls IH]; intros acc; simpl.
  - symmetry. apply app_nil_r.
  - rewrite IH. destruct (is_1a line); [rewrite <- app_assoc |]; reflexivity.
Qed.

Lemma is_1a_eq (line : cell) : is_1a line = true -> line = Field "1a".
Proof.
  destruct line as [raw |]; simpl; [| discriminate].
  intros H. apply String.eqb_eq in H. subst. reflexivity.
Qed.

Lemma filter_is_1a (ls : list cell) :
  filter is_1a ls = repeat (Field "1a") (length (filter is_1a ls)).
Proof.
  induction ls as [| line ls IH]; simpl; [reflexivity |].
  destruct (is_1a line) eqn:Hline; [| exact IH].
  simpl. rewrite <- IH, (is_1a_eq line Hline). reflexivity.
Qed.

Lemma filter_map_length {A B : Type} (p : B -> bool) (f : A -> B) (l : list A) :
  length (filter p (map f l)) = length (filter (fun a => p (f a)) l).
Proof.
  induction l as [| a l IH]; simpl; [reflexivity |].
  destruct (p (f a)); simpl; rewrite IH; reflexivity.
Qed.

Lemma map_snd_only {A B C : Type} (g : B -> C) (l1 : list A) (l2 : list B) :
  length l1 = length l2 ->
  map (fun r => g (snd r)) (combine l1 l2) = map g l2.
Proof.
  intros Hlen. rewrite <- (map_map snd g), map_snd_combine by exact Hlen.
  reflexivity.
Qed.

(** The [exp_no] column of what the logs contribute. *)
Lemma exp_no_series (logs : list table) :
  map (fun cells => Pandas.value_at relevant_cols cells "exp_no")
    (flat_map (trials relevant_cols) logs)
  = flat_map
      (fun t => map (fun r => Pandas.value_at (header t) r "exp_no")
                  (skipn 2 (body t)))
      logs.
Proof.
  induction logs as [| t logs IH]; [reflexivity |].
  cbn [flat_map]. rewrite map_app, IH. f_equal.
  unfold trials. rewrite map_map. apply map_ext. intros r.
  apply (value_at_aligned relevant_cols (Pandas.value_at (header t) r)).
  left. reflexivity.
Qed.

Lemma count_1a (logs : list table) :
  length
    (filter is_1a
       (flat_map
          (fun t => map (fun r => Pandas.value_at (header t) r "exp_no")
                      (skipn 2 (body t)))
          logs))
  = list_sum (map (fun t => length (trials_1a t)) logs).
Proof.
  induction logs as [| t logs IH]; [reflexivity |].
  cbn [flat_map map]. rewrite filter_app, length_app, IH, filter_map_length.
  reflexivity.
Qed.

(** On logs as the experiment writes them, each read under the default
    index, [exp1a] ends up holding the string ['1a'] and nothing else, once
    for every row, practice rows apart, whose [exp_no] is ['1a'], over all
    logs. *)
Theorem exp1a_counts_trials (read_csv : reader) (files : list string)
        (logs : list table) :
  Forall2 (read_as read_csv) files logs ->
  logs <> [] ->
  Forall (fun t => (2 <= length (body t))%nat) logs ->
  Forall (covered logs) relevant_cols ->
  exp1a read_csv files
  = Returned
      (repeat (Field "1a") (list_sum (map (fun t => length (trials_1a t)) logs))).
Proof.
  intros Hread Hsome Hrows Hcols. unfold exp1a.
  rewrite (data_frame read_csv files logs Hread Hsome Hrows Hcols). cbn [bind].
  rewrite exp1a_loop. cbn [app]. unfold series. cbn [columns rows].
  rewrite (map_snd_only (fun cells => Pandas.value_at relevant_cols cells "exp_no"))
    by apply range_length.
  rewrite exp_no_series, filter_is_1a, count_1a. reflexivity.
Qed.

(** A failing load leaves [exp1a] unset: the error of the load is the error
    of the cell. *)
Lemma exp1a_raises (read_csv : reader) (files : list string) (e : exn) :
  data read_csv files = Raised e -> exp1a read_csv files = Raised e.
Proof. intros H. unfold exp1a. rewrite H. reflexivity. Qed.

(* ===================================================================== *)
(** * Sample runs *)
(* ===================================================================== *)

Lemma rotate_negative_witness :
  rotate KK_minor (PyInt (-5)) = rotate KK_minor (PyInt (Z.of_nat 12 + -5)).
Proof. apply (rotate_negative KK_minor (-5)). simpl. lia. Defined.

Lemma rotate_rotate_witness :
  (r <- rotate KK_major (PyInt 7) ;; rotate r (PyInt 9))
  = rotate KK_major (PyInt ((7 + 9) mod Z.of_nat 12)).
Proof. apply (rotate_rotate KK_major 7 9); simpl; lia. Defined.

(** The sample reader reads its logs under the default index. *)
Lemma sample_reads :
  read_as sample_reader "data/p01.csv" sample_log /\
  read_as sample_reader "data/p02.csv" sample_log /\
  read_as sample_reader "data/one_row.csv"
    (Table (header sample_log) (firstn 1 (body sample_log))) /\
  read_as sample_reader "data/two_columns.csv"
    (Table ["exp_no"; "context"]
       [[Field "0"; Field "asc_maj"]; [Field "0"; Field "asc_maj"];
        [Field "1a"; Field "asc_maj"]]).
Proof. repeat split; repeat constructor. Qed.

Lemma sample_covered : Forall (covered [sample_log]) relevant_cols.
Proof.
  repeat (apply Forall_cons; [apply Exists_cons_hd; simpl; tauto |]).
  apply Forall_nil.
Qed.

Lemma exp1a_counts_trials_witness :
  exp1a sample_reader ["data/p01.csv"; "data/p02.csv"]
  = Returned [Field "1a"; Field "1a"; Field "1a"; Field "1a"; Field "1a"; Field "1a"].
Proof.
  refine (exp1a_counts_trials sample_reader ["data/p01.csv"; "data/p02.csv"]
            [sample_log; sample_log] _ _ _ _).
  - repeat constructor.
  - discriminate.
  - repeat constructor.
  - repeat (apply Forall_cons; [apply Exists_cons_hd; simpl; tauto |]).
    apply Forall_nil.
Defined.

Lemma data_returns_iff_witness :
  exists df, data sample_reader ["data/p01.csv"] = Returned df.
Proof.
  refine (proj2 (data_returns_iff sample_reader ["data/p01.csv"] [sample_log] _) _).
  - repeat constructor.
  - split; [discriminate |]. split; [repeat constructor |].
    repeat (apply Forall_cons; [apply Exists_cons_hd; simpl; tauto |]).
    apply Forall_nil.
Defined.

Lemma data_index_error_iff_witness :
  data sample_reader ["data/p01.csv"; "data/one_row.csv"] = Raised IndexError.
Proof.
  refine (proj2 (data_index_error_iff sample_reader
                   ["data/p01.csv"; "data/one_row.csv"]
                   [sample_log; Table (header sample_log) (firstn 1 (body sample_log))]
                   _) _).
  - repeat constructor.
  - apply Exists_cons_tl, Exists_cons_hd. unfold short. simpl. lia.
Defined.

Lemma data_value_error_iff_witness : data sample_reader [] = Raised ValueError.
Proof.
  refine (proj2 (data_value_error_iff sample_reader [] [] _) _).
  - constructor.
  - reflexivity.
Defined.

Lemma data_key_error_iff_witness :
  data sample_reader ["data/two_columns.csv"] = Raised KeyError.
Proof.
  refine (proj2 (data_key_error_iff sample_reader ["data/two_columns.csv"]
                   [Table ["exp_no"; "context"]
                      [[Field "0"; Field "asc_maj"]; [Field "0"; Field "asc_maj"];
                       [Field "1a"; Field "asc_maj"]]] _) _).
  - repeat constructor.
  - split; [discriminate |]. split.
    + intros H. apply Exists_exists in H. destruct H as (t & [<- | []] & Hlt).
      unfold short in Hlt. simpl in Hlt. lia.
    + apply Exists_cons_tl, Exists_cons_tl, Exists_cons_hd.
      intros H. apply Exists_exists in H. destruct H as (t & [<- | []] & Hin).
      simpl in Hin. intuition discriminate.
Defined.

Lemma data_unread_witness :
  data sample_reader ["data/p01.csv"; "data/empty.csv"; "data/one_row.csv"]
  = Raised ValueError.
Proof.
  refine (data_unread sample_reader ["data/p01.csv"] [sample_log]
            "data/empty.csv" ["data/one_row.csv"] ValueError _ _ _).
  - repeat constructor.
  - repeat constructor.
  - reflexivity.
Defined.
